(** * repro.mjs: the dual-stream terminal viewer

    A shallow embedding of [src/repro.mjs]: model selection at startup,
    the greeting tool, the two panels with mirrored scrolling, the key
    handlers, the two stream consumers and their join.

    Conventions.
    - A scroll percentage is an integer in [0,100] (type [Z]).
    - A message handed to [logLeft]/[logRight] is a [string]; the panel
      keeps the messages as a list, as the script keeps them in an array.
    - The stream parts and records handed to [formatPart] are trees
      ([JValue]) whose numbers are integers below 1e21 in magnitude.
    - A thrown value ([Error]) is an object with a message and an
      optional cause, or [null]/[undefined]; a cause is a [JValue] or a
      value [JSON.stringify] rejects (a cycle, a BigInt). *)

From Stdlib Require Import ZArith List String Ascii Bool Lia.
From Stdlib Require Import DecimalString.
Import ListNotations.

Set Warnings "-register-all".

Local Open Scope string_scope.
Local Open Scope Z_scope.

(** ** Characters and strings *)

Definition nl : string := String (ascii_of_nat 10) EmptyString.
Definition dquote : string := String (ascii_of_nat 34) EmptyString.
Definition backslash : string := String (ascii_of_nat 92) EmptyString.

(** [Array.prototype.join(sep)] on an array of strings. *)
Definition join (sep : string) (xs : list string) : string :=
  String.concat sep xs.

(** Decimal rendering of an integer, as [Number.prototype.toString] gives
    for an integral number of magnitude below 1e21. *)
Definition showZ (n : Z) : string := NilZero.string_of_int (Z.to_int n).

Definition hexDigit (n : nat) : string :=
  match n with
  | 0 => "0" | 1 => "1" | 2 => "2" | 3 => "3" | 4 => "4" | 5 => "5"
  | 6 => "6" | 7 => "7" | 8 => "8" | 9 => "9" | 10 => "a" | 11 => "b"
  | 12 => "c" | 13 => "d" | 14 => "e" | _ => "f"
  end%nat.

(** One character of [QuoteJSONString]. *)
Definition escapeChar (c : ascii) : string :=
  let n := nat_of_ascii c in
  if Nat.eqb n 34 then backslash ++ dquote
  else if Nat.eqb n 92 then backslash ++ backslash
  else if Nat.eqb n 8 then backslash ++ "b"
  else if Nat.eqb n 9 then backslash ++ "t"
  else if Nat.eqb n 10 then backslash ++ "n"
  else if Nat.eqb n 12 then backslash ++ "f"
  else if Nat.eqb n 13 then backslash ++ "r"
  else if Nat.ltb n 32
       then backslash ++ "u00" ++ hexDigit (Nat.div n 16) ++ hexDigit (Nat.modulo n 16)
  else String c EmptyString.

Fixpoint escapeString (s : string) : string :=
  match s with
  | EmptyString => EmptyString
  | String c rest => escapeChar c ++ escapeString rest
  end.

Definition quoteJSON (s : string) : string := dquote ++ escapeString s ++ dquote.

(** ** JavaScript values seen by [JSON.stringify] *)

Inductive JValue : Type :=
| JNull
| JBool (b : bool)
| JNum (n : Z)
| JStr (s : string)
| JArr (items : list JValue)
| JObj (fields : list (string * JValue))
| JErr (name message : string).
(* [JErr] is an instance of [Error]: [name] and [message] are not
   enumerable, so without a replacer it serialises as an empty object. *)

(** JavaScript truthiness, for [if (e.cause)]. *)
Definition truthy (v : JValue) : bool :=
  match v with
  | JNull => false
  | JBool b => b
  | JNum n => negb (n =? 0)
  | JStr s => negb (String.eqb s "")
  | JArr _ | JObj _ | JErr _ _ => true
  end.

(** [typeof v === "object" && v !== null]. *)
Definition isObject (v : JValue) : bool :=
  match v with
  | JArr _ | JObj _ | JErr _ _ => true
  | _ => false
  end.

Definition gap : string := "  ".

(** The closing step of [SerializeJSONObject]/[SerializeJSONArray] with a
    non-empty gap: [stepback] is the indentation of the enclosing level. *)
Definition wrapBlock (opening closing stepback : string) (members : list string) : string :=
  match members with
  | [] => opening ++ closing
  | _ =>
      let indent := stepback ++ gap in
      opening ++ nl ++ indent ++ join ("," ++ nl ++ indent) members
      ++ nl ++ stepback ++ closing
  end.

(** [SerializeJSONProperty] with indentation 2.  [replaceErrors] says
    whether the replacer of [formatPart] is installed: it turns the value
    of a property named [error] that is an [Error] into
    [{ name, message }]. *)
Fixpoint serialize (replaceErrors : bool) (stepback key : string) (v : JValue) : string :=
  match v with
  | JNull => "null"
  | JBool true => "true"
  | JBool false => "false"
  | JNum n => showZ n
  | JStr s => quoteJSON s
  | JArr items =>
      wrapBlock "[" "]" stepback
        (map (serialize replaceErrors (stepback ++ gap) "") items)
  | JObj fields =>
      wrapBlock "{" "}" stepback
        (map (fun kv => quoteJSON (fst kv) ++ ": "
                        ++ serialize replaceErrors (stepback ++ gap) (fst kv) (snd kv))
             fields)
  | JErr name message =>
      if replaceErrors && String.eqb key "error"
      then wrapBlock "{" "}" stepback
             [ quoteJSON "name" ++ ": " ++ quoteJSON name;
               quoteJSON "message" ++ ": " ++ quoteJSON message ]
      else "{}"
  end.

(** [JSON.stringify(v, null, 2)]. *)
Definition JSON_stringify (v : JValue) : string := serialize false "" "" v.

(** [formatPart], lines 193-201. *)
Definition formatPart (part : JValue) : string := serialize true "" "" part.

(** ** Startup: model selection (lines 8-28) *)

(** [process.env]: a variable is absent ([None]) or holds a string. *)
Record Env : Type := {
  ANTHROPIC_API_KEY : option string;
  OPENAI_API_KEY : option string
}.

(** [if (process.env.X)]: absent and empty are both falsy. *)
Definition envTruthy (v : option string) : bool :=
  match v with
  | Some s => negb (String.eqb s "")
  | None => false
  end.

(** The variable is in the environment, whatever its value. *)
Definition envSet (v : option string) : bool :=
  match v with
  | Some _ => true
  | None => false
  end.

Inductive Provider : Type := Anthropic | OpenAI.

(** The handle returned by [anthropic(id)] / [openai(id)]. *)
Record Model : Type := {
  provider : Provider;
  apiKey : string;
  modelId : string
}.

Inductive Startup : Type :=
| Selected (baseModel : Model) (modelName : string)
| Fatal (stderr : list string) (exitCode : Z).

Definition selectModel (env : Env) : Startup :=
  if envTruthy (ANTHROPIC_API_KEY env) then
    Selected {| provider := Anthropic;
                apiKey := match ANTHROPIC_API_KEY env with Some k => k | None => "" end;
                modelId := "claude-3-5-haiku-latest" |}
             "Claude 3.5 Haiku"
  else if envTruthy (OPENAI_API_KEY env) then
    Selected {| provider := OpenAI;
                apiKey := match OPENAI_API_KEY env with Some k => k | None => "" end;
                modelId := "gpt-4o-mini" |}
             "GPT-4o Mini"
  else
    Fatal [ "Error: Neither ANTHROPIC_API_KEY nor OPENAI_API_KEY is set.";
            "Please set one of them in your .env file." ]
          1.

(** [s] is a prefix of [t]. *)
Fixpoint isPrefix (s t : string) : bool :=
  match s, t with
  | EmptyString, _ => true
  | String a s', String b t' => Ascii.eqb a b && isPrefix s' t'
  | String _ _, EmptyString => false
  end.

(** [s] occurs in [t]. *)
Fixpoint contains (s t : string) : bool :=
  isPrefix s t ||
  match t with
  | EmptyString => false
  | String _ t' => contains s t'
  end.

(** ** The greeting tool (lines 34-56) *)

(** An async generator body, unrolled: what it does up to its next
    [yield], and how it goes on when resumed. *)
Inductive Gen : Type :=
| GLog (msg : string) (rest : Gen)      (* logFn(msg) *)
| GYield (value : JValue) (rest : Gen)  (* yield value *)
| GReturn.                              (* end of the body *)

(** [execute({ name })] of [createGreetingTool(logFn)]; the [logFn] is
    supplied when the generator is run. *)
Definition execute (name : string) : Gen :=
  GLog ("[execute] Starting generator for: " ++ name)
  (GYield (JObj [("status", JStr "starting"); ("message", JStr "Preparing greeting...")])
  (GLog "[execute] Yielded starting status"
  (GYield (JObj [("status", JStr "processing"); ("message", JStr ("Looking up " ++ name ++ "..."))])
  (GLog "[execute] Yielded processing status"
  (GYield (JObj [("status", JStr "generating"); ("message", JStr "Generating greeting...")])
  (GLog "[execute] Yielded generating status"
  (let greeting := "Hello, " ++ name ++ "!" in
   GLog "[execute] Returning final result"
  (let result := JObj [("status", JStr "done"); ("greeting", JStr greeting)] in
   GYield result
   GReturn)))))))).

(** The values a generator yields, in order. *)
Fixpoint yields (g : Gen) : list JValue :=
  match g with
  | GLog _ rest => yields rest
  | GYield v rest => v :: yields rest
  | GReturn => []
  end.

(** The [status] field of a status object. *)
Definition statusOf (v : JValue) : option string :=
  match v with
  | JObj (("status", JStr s) :: _) => Some s
  | _ => None
  end.

(** ** Panels (lines 58-111) *)

Inductive Side : Type := LeftSide | RightSide.

Definition other (s : Side) : Side :=
  match s with
  | LeftSide => RightSide
  | RightSide => LeftSide
  end.

Definition Side_eqb (a b : Side) : bool :=
  match a, b with
  | LeftSide, LeftSide | RightSide, RightSide => true
  | _, _ => false
  end.

(** Modelled from the spec: the toolkit's scrollable box ([blessed.box]
    is a dependency, not part of the sources).  Spec section 3,
    PanelState: the rendered content, a scroll percentage kept in
    [0,100], and the viewport height. *)
Record Box : Type := {
  content : string;
  scrollPerc : Z;
  height : Z
}.

Definition clampPerc (p : Z) : Z := Z.max 0 (Z.min 100 p).

(** Modelled from the spec: [box.setContent(text)] replaces the content
    and leaves the scroll position alone. *)
Definition Box_setContent (text : string) (b : Box) : Box :=
  {| content := text; scrollPerc := scrollPerc b; height := height b |}.

(** Modelled from the spec: [box.getScrollPerc()]. *)
Definition Box_getScrollPerc (b : Box) : Z := scrollPerc b.

(** Modelled from the spec: the position change of
    [box.setScrollPerc(p)], clamped to [0,100], content untouched.  The
    scroll notification that follows is [onScroll] below. *)
Definition Box_moveTo (p : Z) (b : Box) : Box :=
  {| content := content b; scrollPerc := clampPerc p; height := height b |}.

(** A write to the [syncing] flag, kept as a ghost log so that the
    discipline of the guard can be stated on a run. *)
Inductive GuardEvent : Type :=
| Acquire (source : Side)   (* syncing = true,  line 118 *)
| Release (source : Side).  (* syncing = false, line 122 *)

(** The mutable state of the script once the screen exists. *)
Record UI : Type := {
  title : string;
  statusBar : string;
  leftBox : Box;
  rightBox : Box;
  syncing : bool;
  focusedBox : Side;
  leftLines : list string;
  rightLines : list string;
  renders : nat;
  guardLog : list GuardEvent
}.

Definition getBox (s : Side) (ui : UI) : Box :=
  match s with
  | LeftSide => leftBox ui
  | RightSide => rightBox ui
  end.

Definition setBox (s : Side) (b : Box) (ui : UI) : UI :=
  {| title := title ui; statusBar := statusBar ui;
     leftBox := match s with LeftSide => b | RightSide => leftBox ui end;
     rightBox := match s with LeftSide => rightBox ui | RightSide => b end;
     syncing := syncing ui; focusedBox := focusedBox ui;
     leftLines := leftLines ui; rightLines := rightLines ui;
     renders := renders ui; guardLog := guardLog ui |}.

Definition getLines (s : Side) (ui : UI) : list string :=
  match s with
  | LeftSide => leftLines ui
  | RightSide => rightLines ui
  end.

Definition pushLine (s : Side) (msg : string) (ui : UI) : UI :=
  {| title := title ui; statusBar := statusBar ui;
     leftBox := leftBox ui; rightBox := rightBox ui;
     syncing := syncing ui; focusedBox := focusedBox ui;
     leftLines := match s with LeftSide => leftLines ui ++ [msg] | RightSide => leftLines ui end;
     rightLines := match s with LeftSide => rightLines ui | RightSide => rightLines ui ++ [msg] end;
     renders := renders ui; guardLog := guardLog ui |}.

(** [syncing = flag], with the ghost log entry. *)
Definition setSyncing (flag : bool) (source : Side) (ui : UI) : UI :=
  {| title := title ui; statusBar := statusBar ui;
     leftBox := leftBox ui; rightBox := rightBox ui;
     syncing := flag; focusedBox := focusedBox ui;
     leftLines := leftLines ui; rightLines := rightLines ui;
     renders := renders ui;
     guardLog := guardLog ui ++ [if flag then Acquire source else Release source] |}.

Definition setFocus (s : Side) (ui : UI) : UI :=
  {| title := title ui; statusBar := statusBar ui;
     leftBox := leftBox ui; rightBox := rightBox ui;
     syncing := syncing ui; focusedBox := s;
     leftLines := leftLines ui; rightLines := rightLines ui;
     renders := renders ui; guardLog := guardLog ui |}.

(** [screen.render()]. *)
Definition render (ui : UI) : UI :=
  {| title := title ui; statusBar := statusBar ui;
     leftBox := leftBox ui; rightBox := rightBox ui;
     syncing := syncing ui; focusedBox := focusedBox ui;
     leftLines := leftLines ui; rightLines := rightLines ui;
     renders := S (renders ui); guardLog := guardLog ui |}.

(** The screen as lines 58-130 and 176-177 leave it: empty panels at the
    top, the flag free, the left panel focused.  [rows] is the viewport
    height the terminal gives each panel. *)
Definition initialUI (modelName : string) (rows : Z) : UI :=
  {| title := "Braintrust Async Generator Repro - " ++ modelName;
     statusBar := " {bold}Model:{/bold} " ++ modelName
                  ++ " | {bold}↑/↓{/bold} scroll | {bold}q{/bold} quit | {bold}Tab{/bold} switch panel";
     leftBox := {| content := ""; scrollPerc := 0; height := rows |};
     rightBox := {| content := ""; scrollPerc := 0; height := rows |};
     syncing := false;
     focusedBox := LeftSide;
     leftLines := [];
     rightLines := [];
     renders := 0;
     guardLog := [] |}.

(** ** Scroll synchronisation (lines 113-126) *)

Section ScrollEvents.

(** The synchroniser the listeners call; [None] is a run that did not
    finish within the recursion budget. *)
Variable sync : Side -> Side -> UI -> option UI.

(** The two [scroll] listeners, lines 125-126: the box that scrolled is
    the source, the opposite box the target. *)
Definition onScroll (s : Side) (ui : UI) : option UI := sync s (other s) ui.

(** Modelled from the spec: [box.setScrollPerc(p)] moves the box and
    then notifies the box's [scroll] listener, synchronously. *)
Definition setScrollPercWith (s : Side) (p : Z) (ui : UI) : option UI :=
  onScroll s (setBox s (Box_moveTo p (getBox s ui)) ui).

End ScrollEvents.

(** [syncScroll(source, target)], lines 116-123.  The call re-enters
    itself through the listener of [target]; [fuel] bounds the depth. *)
Fixpoint syncScrollFuel (fuel : nat) (source target : Side) (ui : UI) : option UI :=
  match fuel with
  | O => None
  | S fuel' =>
      if syncing ui then Some ui
      else
        let ui1 := setSyncing true source ui in
        let scrollPercent := Box_getScrollPerc (getBox source ui1) in
        match setScrollPercWith (syncScrollFuel fuel') target scrollPercent ui1 with
        | None => None
        | Some ui2 => Some (setSyncing false source (render ui2))
        end
  end.

(** Depth two is enough (see [syncScrollFuel_enough]): the nested call
    finds the flag held. *)
Definition syncScroll (source target : Side) (ui : UI) : UI :=
  match syncScrollFuel 2 source target ui with
  | Some ui' => ui'
  | None => ui
  end.

(** [box.setScrollPerc(p)] with the listeners of lines 125-126 attached. *)
Definition setScrollPerc (s : Side) (p : Z) (ui : UI) : UI :=
  syncScroll s (other s) (setBox s (Box_moveTo p (getBox s ui)) ui).

(** ** Appending to a panel (lines 176-191) *)

Definition logLeft (msg : string) (ui : UI) : UI :=
  let ui1 := pushLine LeftSide msg ui in
  let ui2 := setBox LeftSide (Box_setContent (join nl (leftLines ui1)) (leftBox ui1)) ui1 in
  let ui3 := setScrollPerc LeftSide 100 ui2 in
  syncScroll LeftSide RightSide ui3.

Definition logRight (msg : string) (ui : UI) : UI :=
  let ui1 := pushLine RightSide msg ui in
  let ui2 := setBox RightSide (Box_setContent (join nl (rightLines ui1)) (rightBox ui1)) ui1 in
  let ui3 := setScrollPerc RightSide 100 ui2 in
  syncScroll RightSide LeftSide ui3.

(** The append of the consumer that owns panel [s]. *)
Definition logTo (s : Side) : string -> UI -> UI :=
  match s with
  | LeftSide => logLeft
  | RightSide => logRight
  end.

(** ** Keys (lines 128-174) *)

Inductive Key : Type :=
| KeyUp | KeyK | KeyDown | KeyJ
| KeyPageUp | KeyPageDown
| KeyHome | KeyG | KeyEnd | KeyShiftG
| KeyTab | KeyQ | KeyCtrlC
| KeyOther.

Definition isScrollKey (k : Key) : bool :=
  match k with
  | KeyTab | KeyQ | KeyCtrlC | KeyOther => false
  | _ => true
  end.

(** What a handler leaves behind: the state, or the process has ended. *)
Inductive Outcome : Type :=
| Continue (ui : UI)
| Exit (code : Z).

Section Keys.

(** The percentage at which the toolkit leaves a box that is scrolled
    by [offset] lines.  It depends on the line count and the viewport,
    which the toolkit owns; every result below holds for any such
    function. *)
Variable lineTarget : Box -> Z -> Z.

(** Modelled from the spec: [box.scroll(offset)], a scroll by lines
    expressed through the percentage setter (spec section 4.2). *)
Definition scroll (s : Side) (offset : Z) (ui : UI) : UI :=
  setScrollPerc s (lineTarget (getBox s ui) offset) ui.

(** Lines 132-141. *)
Definition onTab (ui : UI) : UI :=
  render (match focusedBox ui with
          | LeftSide => setFocus RightSide ui
          | RightSide => setFocus LeftSide ui
          end).

(** Lines 144-147. *)
Definition onUp (ui : UI) : UI :=
  syncScroll LeftSide RightSide (scroll LeftSide (-1) ui).

(** Lines 149-152. *)
Definition onDown (ui : UI) : UI :=
  syncScroll LeftSide RightSide (scroll LeftSide 1 ui).

(** Lines 154-157. *)
Definition onPageUp (ui : UI) : UI :=
  syncScroll LeftSide RightSide (scroll LeftSide (- height (leftBox ui)) ui).

(** Lines 159-162. *)
Definition onPageDown (ui : UI) : UI :=
  syncScroll LeftSide RightSide (scroll LeftSide (height (leftBox ui)) ui).

(** Lines 164-167. *)
Definition onHome (ui : UI) : UI :=
  syncScroll LeftSide RightSide (setScrollPerc LeftSide 0 ui).

(** Lines 169-172. *)
Definition onEnd (ui : UI) : UI :=
  syncScroll LeftSide RightSide (setScrollPerc LeftSide 100 ui).

(** [screen.key] dispatch; a key with no binding changes nothing. *)
Definition onKey (k : Key) (ui : UI) : Outcome :=
  match k with
  | KeyTab => Continue (onTab ui)
  | KeyUp | KeyK => Continue (onUp ui)
  | KeyDown | KeyJ => Continue (onDown ui)
  | KeyPageUp => Continue (onPageUp ui)
  | KeyPageDown => Continue (onPageDown ui)
  | KeyHome | KeyG => Continue (onHome ui)
  | KeyEnd | KeyShiftG => Continue (onEnd ui)
  | KeyQ | KeyCtrlC => Exit 0
  | KeyOther => Continue ui
  end.

(** What the toolkit itself binds to a key in a box (blessed is a
    dependency, not part of the sources, and the spec does not describe
    this).  Both boxes are created with [keys: true, vi: true], lines
    76-77 and 93-94: the box that has the focus then scrolls by one line
    on up/k and down/j, jumps to the top on g and to the bottom on S-g,
    and redraws the screen.  The other keys of the script have no
    binding in a box. *)
Inductive BoxAction : Type :=
| ByLines (offset : Z)
| ToTop
| ToBottom.

Definition boxKeys (k : Key) : option BoxAction :=
  match k with
  | KeyUp | KeyK => Some (ByLines (-1))
  | KeyDown | KeyJ => Some (ByLines 1)
  | KeyG => Some ToTop
  | KeyShiftG => Some ToBottom
  | _ => None
  end.

(** The key as the focused box handles it. *)
Definition ownKey (k : Key) (focused : Side) (ui : UI) : UI :=
  match boxKeys k with
  | None => ui
  | Some (ByLines offset) => render (scroll focused offset ui)
  | Some ToTop => render (setScrollPerc focused 0 ui)
  | Some ToBottom => render (setScrollPerc focused 100 ui)
  end.

(** One key press: the toolkit runs the handlers registered on the
    screen first, then hands the key to the box that had the focus when
    the key arrived.  Nothing runs after [process.exit]. *)
Definition press (k : Key) (ui : UI) : Outcome :=
  match onKey k ui with
  | Continue ui' => Continue (ownKey k (focusedBox ui) ui')
  | Exit code => Exit code
  end.

(** The percentage a box binding asks of the box it is applied to. *)
Definition boxRequest (a : BoxAction) (b : Box) : Z :=
  match a with
  | ByLines offset => lineTarget b offset
  | ToTop => 0
  | ToBottom => 100
  end.

(** The percentage a scroll key asks of the box it is applied to. *)
Definition keyRequest (k : Key) (b : Box) : Z :=
  match k with
  | KeyUp | KeyK => lineTarget b (-1)
  | KeyDown | KeyJ => lineTarget b 1
  | KeyPageUp => lineTarget b (- height b)
  | KeyPageDown => lineTarget b (height b)
  | KeyHome | KeyG => 0
  | KeyEnd | KeyShiftG => 100
  | _ => scrollPerc b
  end.

(** One turn of the event loop on the user interface. *)
Inductive Input : Type :=
| Scrolled (s : Side) (p : Z)        (* the toolkit moved panel [s] to [p] *)
| Wheel (s : Side) (offset : Z)      (* the toolkit scrolled panel [s] by lines *)
| Pressed (k : Key)                  (* a key was pressed *)
| Appended (s : Side) (msg : string) (* a consumer called logLeft/logRight *).

Definition handle (i : Input) (ui : UI) : Outcome :=
  match i with
  | Scrolled s p => Continue (setScrollPerc s p ui)
  | Wheel s offset => Continue (scroll s offset ui)
  | Pressed k => press k ui
  | Appended s msg => Continue (logTo s msg ui)
  end.

(** The turns are taken one after the other; nothing runs after an exit.
    The result is the last state and the exit code, if any. *)
Fixpoint run (inputs : list Input) (ui : UI) : UI * option Z :=
  match inputs with
  | [] => (ui, None)
  | i :: rest =>
      match handle i ui with
      | Continue ui' => run rest ui'
      | Exit code => (ui, Some code)
      end
  end.

End Keys.

(** The guard discipline on a log of flag writes: starting with the flag
    at [held], every [Acquire] finds it free and every [Release] finds it
    held by the same source.  The result is the flag at the end, [None]
    when the discipline is broken. *)
Fixpoint guardRun (held : option Side) (log : list GuardEvent) : option (option Side) :=
  match log with
  | [] => Some held
  | Acquire s :: rest =>
      match held with
      | None => guardRun (Some s) rest
      | Some _ => None
      end
  | Release s :: rest =>
      match held with
      | Some s' => if Side_eqb s s' then guardRun None rest else None
      | None => None
      end
  end.

(** ** Stream consumers (lines 203-259) *)

(** The value of [e.cause]. *)
Inductive Cause : Type :=
| Plain (v : JValue)  (* a value [JSON.stringify] serialises *)
| Unserialisable.     (* an object with a cycle or a BigInt inside: truthy,
                         and [JSON.stringify] throws a TypeError on it *)

(** A thrown value. *)
Inductive Error : Type :=
| ErrorObject (message : string) (cause : option Cause)
    (* an object [e] with [e.message] and [e.cause] (absent when [None]) *)
| Nullish.
    (* [null] or [undefined]: reading [e.message] throws a TypeError *)

(** The TypeError the engine raises inside a handler on [e]; the wording
    of its message is the engine's. *)
Definition handlerTypeError (e : Error) : Error :=
  match e with
  | Nullish => ErrorObject "Cannot read properties of null (reading 'message')" None
  | ErrorObject _ _ => ErrorObject "Converting circular structure to JSON" None
  end.

(** What a consumer can be suspended on. *)
Inductive Awaited : Type :=
| NextPart      (* the next element of result.fullStream *)
| FinalText     (* result.text *)
| ToolCalls     (* result.toolCalls *)
| ToolResults.  (* result.toolResults *)

(** What a consumer does between its start and its settlement. *)
Inductive Action : Type :=
| Log (panel : Side) (msg : string)  (* logLeft(msg) / logRight(msg) *)
| Await (what : Awaited).            (* await ... *)

(** An async function body: the actions it performs, then the value it
    returns or the error it throws. *)
Definition Task (A : Type) : Type := (list Action * (Error + A))%type.

Definition ret {A : Type} (a : A) : Task A := ([], inr a).

Definition bind {A B : Type} (m : Task A) (k : A -> Task B) : Task B :=
  let (done, outcome) := m in
  match outcome with
  | inl e => (done, inl e)
  | inr a => let (more, outcome') := k a in ((done ++ more)%list, outcome')
  end.

Notation "x <- m ;; k" := (bind m (fun x => k))
  (at level 61, m at next level, right associativity).
Notation "m ;; k" := (bind m (fun _ => k))
  (at level 61, right associativity).

Definition log (panel : Side) (msg : string) : Task unit := ([Log panel msg], inr tt).

(** [throw e]. *)
Definition throw {A : Type} (e : Error) : Task A := ([], inl e).

(** [await p] where [p] settles as [settled]. *)
Definition await {A : Type} (what : Awaited) (settled : Error + A) : Task A :=
  ([Await what], settled).

(** [promise.catch(handler)]. *)
Definition catch (m : Task unit) (handler : Error -> Task unit) : Task unit :=
  let (done, outcome) := m in
  match outcome with
  | inl e => let (more, outcome') := handler e in ((done ++ more)%list, outcome')
  | inr _ => m
  end.

(** What happens, in order, while a consumer iterates over the stream:
    a part is delivered to the loop, or the tool's generator is resumed
    and calls its [logFn]. *)
Inductive StreamItem : Type :=
| Part (part : JValue)
| ToolLog (msg : string).

(** How one [streamText] call behaves: the environment of a consumer. *)
Record StreamResult : Type := {
  fullStream : list StreamItem;
  streamFailure : option Error;   (* thrown by the iteration after the items *)
  text : Error + string;
  toolCalls : Error + JValue;
  toolResults : Error + JValue
}.

(** [for await (const part of result.fullStream) body(part)], with the
    tool's [logFn] bound to [logFn]. *)
Fixpoint forAwait (logFn : string -> Task unit) (items : list StreamItem)
    (failure : option Error) (body : JValue -> Task unit) : Task unit :=
  match items with
  | [] =>
      await NextPart (match failure with Some e => inl e | None => inr tt end)
  | Part part :: rest =>
      await NextPart (inr tt) ;; body part ;; forAwait logFn rest failure body
  | ToolLog msg :: rest =>
      logFn msg ;; forAwait logFn rest failure body
  end.

(** Lines 203-234. *)
Definition testWithoutWrapping (result : StreamResult) : Task unit :=
  log LeftSide ("{yellow-fg}Starting test (ai.streamText)...{/yellow-fg}" ++ nl) ;;
  forAwait (log LeftSide) (fullStream result) (streamFailure result)
    (fun part =>
       log LeftSide "{cyan-fg}Part:{/cyan-fg}" ;;
       log LeftSide (formatPart part) ;;
       log LeftSide "") ;;
  finalText <- await FinalText (text result) ;;
  toolCalls <- await ToolCalls (toolCalls result) ;;
  toolResults <- await ToolResults (toolResults result) ;;
  log LeftSide "{yellow-fg}=== Final Text ==={/yellow-fg}" ;;
  log LeftSide (if String.eqb finalText "" then "(empty)" else finalText) ;;
  log LeftSide "" ;;
  log LeftSide "{yellow-fg}=== Tool Calls ==={/yellow-fg}" ;;
  log LeftSide (formatPart toolCalls) ;;
  log LeftSide "" ;;
  log LeftSide "{yellow-fg}=== Tool Results ==={/yellow-fg}" ;;
  log LeftSide (formatPart toolResults) ;;
  log LeftSide "" ;;
  log LeftSide "{green-fg}Done!{/green-fg}".

(** Lines 236-259. *)
Definition testWithWrapping (result : StreamResult) : Task unit :=
  log RightSide ("{yellow-fg}Starting test (wrappedStreamText)...{/yellow-fg}" ++ nl) ;;
  forAwait (log RightSide) (fullStream result) (streamFailure result)
    (fun part =>
       log RightSide "{cyan-fg}Part:{/cyan-fg}" ;;
       log RightSide (formatPart part) ;;
       log RightSide "") ;;
  toolResults <- await ToolResults (toolResults result) ;;
  log RightSide "{yellow-fg}=== Tool Results ==={/yellow-fg}" ;;
  log RightSide (formatPart toolResults) ;;
  log RightSide "" ;;
  log RightSide "{green-fg}Done!{/green-fg}".

(** The two [catch] handlers, lines 265-268 and 269-272.  The argument
    of each append is evaluated before the append: on [null] nothing is
    appended, and on a cause that cannot be serialised the error line is
    there but no cause line. *)
Definition reportError (panel : Side) (e : Error) : Task unit :=
  match e with
  | Nullish => throw (handlerTypeError e)
  | ErrorObject message cause =>
      log panel ("{red-fg}Error: " ++ message ++ "{/red-fg}") ;;
      match cause with
      | Some (Plain c) =>
          if truthy c then log panel ("Cause: " ++ JSON_stringify c) else ret tt
      | Some Unserialisable => throw (handlerTypeError e)
      | None => ret tt
      end
  end.

(** The consumer of panel [s], before its [catch]. *)
Definition consumer (s : Side) : StreamResult -> Task unit :=
  match s with
  | LeftSide => testWithoutWrapping
  | RightSide => testWithWrapping
  end.

(** The two promises handed to [Promise.all]. *)
Definition guarded (s : Side) (result : StreamResult) : Task unit :=
  catch (consumer s result) (reportError s).

(** The messages a task appends to panel [s], in order. *)
Fixpoint logged (s : Side) (actions : list Action) : list string :=
  match actions with
  | [] => []
  | Log panel msg :: rest =>
      if Side_eqb panel s then msg :: logged s rest else logged s rest
  | Await _ :: rest => logged s rest
  end.

(** The follow-up retrievals a task performs, in order. *)
Fixpoint retrievals (actions : list Action) : list Awaited :=
  match actions with
  | [] => []
  | Await NextPart :: rest => retrievals rest
  | Await what :: rest => what :: retrievals rest
  | Log _ _ :: rest => retrievals rest
  end.

Definition finalTextHeader : string := "{yellow-fg}=== Final Text ==={/yellow-fg}".
Definition toolCallsHeader : string := "{yellow-fg}=== Tool Calls ==={/yellow-fg}".
Definition toolResultsHeader : string := "{yellow-fg}=== Tool Results ==={/yellow-fg}".
Definition doneLine : string := "{green-fg}Done!{/green-fg}".
Definition partHeader : string := "{cyan-fg}Part:{/cyan-fg}".

Definition memString (x : string) (xs : list string) : bool :=
  existsb (String.eqb x) xs.

(** ** The join (lines 261-276) *)

(** What the event loop sees of the two tasks: an action of one of them,
    or the settlement of one of the two promises ([None]: fulfilled). *)
Inductive Event : Type :=
| Act (a : Action)
| Settle (task : Side) (outcome : option Error).

Definition settlement {A : Type} (r : Error + A) : option Error :=
  match r with
  | inl e => Some e
  | inr _ => None
  end.

(** The life of one promise: its actions, then its settlement. *)
Definition events (task : Side) (t : Task unit) : list Event :=
  (map Act (fst t) ++ [Settle task (settlement (snd t))])%list.

(** The scheduler: at each turn the named task advances by one event if
    it still has one, otherwise the other one runs on; when the schedule
    is used up the left task runs to its end, then the right one. *)
Fixpoint interleave {A : Type} (schedule : list Side) (l r : list A) : list A :=
  match schedule with
  | [] => (l ++ r)%list
  | LeftSide :: rest =>
      match l with
      | x :: l' => x :: interleave rest l' r
      | [] => r
      end
  | RightSide :: rest =>
      match r with
      | y :: r' => y :: interleave rest l r'
      | [] => l
      end
  end.

(** All the ways two sequences can be merged, each keeping its order. *)
Inductive Merge {A : Type} : list A -> list A -> list A -> Prop :=
| Merge_nil : Merge [] [] []
| Merge_left x l r m : Merge l r m -> Merge (x :: l) r (x :: m)
| Merge_right y l r m : Merge l r m -> Merge l (y :: r) (y :: m).

(** The state of [Promise.all]. *)
Inductive Joined : Type :=
| Pending (fulfilled : nat)
| AllFulfilled
| Rejected (e : Error).

(** [Promise.all] over [n] promises reads the settlements as they come:
    the first rejection rejects it at once, the [n]-th fulfilment
    fulfils it. *)
Definition joinStep (n : nat) (j : Joined) (ev : Event) : Joined :=
  match j, ev with
  | Pending k, Settle _ None => if Nat.eqb (S k) n then AllFulfilled else Pending (S k)
  | Pending _, Settle _ (Some e) => Rejected e
  | _, _ => j
  end.

Definition promiseAll (n : nat) (evs : list Event) : Joined :=
  fold_left (joinStep n) evs (Pending 0).

Definition quitNotice : string := nl ++ "{bold}Press q to quit{/bold}".

(** The [then] callback, lines 273-276. *)
Definition onJoined : list Event :=
  [Act (Log LeftSide quitNotice); Act (Log RightSide quitNotice)].

(** [Promise.all(...).then(callback)]: the callback runs at the moment
    the join is fulfilled, and not at all when it is rejected. *)
Fixpoint joinRun (n : nat) (j : Joined) (evs : list Event) : list Event :=
  match evs with
  | [] => []
  | ev :: rest =>
      let j' := joinStep n j ev in
      (ev :: match j, j' with
             | Pending _, AllFulfilled => onJoined
             | _, _ => []
             end ++ joinRun n j' rest)%list
  end.

(** Everything the two consumers and the join do, in the order the
    schedule gives.  [wrap] is what is put around each consumer before it
    is handed to [Promise.all]: the script uses [guarded]. *)
Definition joined (wrap : Side -> StreamResult -> Task unit)
    (schedule : list Side) (left right : StreamResult) : list Event :=
  joinRun 2 (Pending 0)
    (interleave schedule (events LeftSide (wrap LeftSide left))
                         (events RightSide (wrap RightSide right))).

Definition program : list Side -> StreamResult -> StreamResult -> list Event :=
  joined guarded.

Definition perform (ui : UI) (ev : Event) : UI :=
  match ev with
  | Act (Log panel msg) => logTo panel msg ui
  | Act (Await _) => ui
  | Settle _ _ => ui
  end.

Definition exec (evs : list Event) (ui : UI) : UI := fold_left perform evs ui.

(** The messages appended to panel [s] by a sequence of events. *)
Fixpoint appended (s : Side) (evs : list Event) : list string :=
  match evs with
  | [] => []
  | Act (Log panel msg) :: rest =>
      if Side_eqb panel s then msg :: appended s rest else appended s rest
  | _ :: rest => appended s rest
  end.

(** ** The whole script *)

Inductive Final : Type :=
| Died (stderr : list string) (exitCode : Z)  (* no screen was ever created *)
| Alive (ui : UI).

(** Lines 1-276 in order: model selection, then (only if a model was
    selected) the screen, and the two consumers under [schedule]. *)
Definition main (env : Env) (rows : Z) (schedule : list Side)
    (left right : StreamResult) : Final :=
  match selectModel env with
  | Fatal stderr code => Died stderr code
  | Selected _ modelName =>
      Alive (exec (program schedule left right) (initialUI modelName rows))
  end.

(** ** The tool inside a stream *)

Section ToolStream.

(** The stream part in which the runtime delivers a value yielded by a
    tool; its shape belongs to the runtime. *)
Variable toolResultPart : JValue -> JValue.

(** Modelled from the spec: the generation runtime ([streamText] is a
    dependency, not part of the sources) resumes the tool's generator
    until it ends, and each yielded value surfaces as a stream event of
    its own (spec section 6, tool definition / execute contract). *)
Fixpoint toolStream (g : Gen) : list StreamItem :=
  match g with
  | GLog msg rest => ToolLog msg :: toolStream rest
  | GYield v rest => Part (toolResultPart v) :: toolStream rest
  | GReturn => []
  end.

End ToolStream.

(** The parts of a stream, in order. *)
Fixpoint partsOf (items : list StreamItem) : list JValue :=
  match items with
  | [] => []
  | Part p :: rest => p :: partsOf rest
  | ToolLog _ :: rest => partsOf rest
  end.

(** The three lines the consumer loop appends for one part. *)
Definition partBlock (part : JValue) : list string :=
  [partHeader; formatPart part; ""].

(** The append of a sequence of messages to one panel. *)
Definition appendAll (s : Side) (msgs : list string) (ui : UI) : UI :=
  fold_left (fun u msg => logTo s msg u) msgs ui.

(** The state between two turns of the event loop: the flag is free and
    the log of its writes is a sequence of matched acquire/release pairs. *)
Definition disciplined (ui : UI) : Prop :=
  syncing ui = false /\ guardRun None (guardLog ui) = Some None.

(** The stream call of the consumer that owns panel [s]. *)
Definition pick {A : Type} (s : Side) (left right : A) : A :=
  match s with
  | LeftSide => left
  | RightSide => right
  end.

(** The lines of an error report. *)
Definition errorLine (message : string) : string :=
  "{red-fg}Error: " ++ message ++ "{/red-fg}".

Definition causeLine (c : JValue) : string := "Cause: " ++ JSON_stringify c.

(** The error carries a cause object, as the specification words the
    condition for a cause line. *)
Definition carriesCauseObject (e : Error) : bool :=
  match e with
  | ErrorObject _ (Some (Plain c)) => isObject c
  | ErrorObject _ (Some Unserialisable) => true
  | _ => false
  end.

(** The lines a handler appends for [e]. *)
Definition report (e : Error) : list string :=
  match e with
  | Nullish => []
  | ErrorObject message cause =>
      errorLine message ::
      match cause with
      | Some (Plain c) => if truthy c then [causeLine c] else []
      | _ => []
      end
  end.

(** The handler runs to its end on [e]: [e] is an object and its cause,
    if any, can be serialised. *)
Definition handlerCompletes (e : Error) : bool :=
  match e with
  | Nullish => false
  | ErrorObject _ (Some Unserialisable) => false
  | ErrorObject _ _ => true
  end.

(** The promise of consumer [s] with its [catch] is fulfilled. *)
Definition completes (s : Side) (result : StreamResult) : bool :=
  match snd (consumer s result) with
  | inl e => handlerCompletes e
  | inr _ => true
  end.

(** A settlement that is a fulfilment. *)
Definition fulfilled (outcome : option Error) : bool :=
  match outcome with
  | None => true
  | Some _ => false
  end.

(** The quit notice, if the [then] callback runs. *)
Definition noticeIf (joinedOk : bool) : list string :=
  if joinedOk then [quitNotice] else [].

(** The body of the two consumer loops, for panel [panel]. *)
Definition showPart (panel : Side) (part : JValue) : Task unit :=
  log panel partHeader ;;
  log panel (formatPart part) ;;
  log panel "".

(** The actions of a consumer loop over a stream, item by item. *)
Fixpoint loopActions (panel : Side) (items : list StreamItem) : list Action :=
  match items with
  | [] => [Await NextPart]
  | Part part :: rest =>
      Await NextPart :: Log panel partHeader :: Log panel (formatPart part)
        :: Log panel "" :: loopActions panel rest
  | ToolLog msg :: rest => Log panel msg :: loopActions panel rest
  end.

(** The lines a consumer loop appends for a stream. *)
Fixpoint shown (items : list StreamItem) : list string :=
  match items with
  | [] => []
  | Part part :: rest => (partBlock part ++ shown rest)%list
  | ToolLog msg :: rest => msg :: shown rest
  end.

(** Every box shows its line array joined by newlines. *)
Definition rendered (ui : UI) : Prop :=
  forall s, content (getBox s ui) = join nl (getLines s ui).

(** ** Sample inputs *)

Definition sampleTarget (b : Box) (offset : Z) : Z := scrollPerc b + 10 * offset.

Definition sampleUI : UI := initialUI "GPT-4o Mini" 24.

Definition sampleParts : list StreamItem :=
  [Part (JObj [("type", JStr "start")]);
   Part (JObj [("type", JStr "text-delta"); ("text", JStr "Hi")])].

Definition sampleResult : StreamResult :=
  {| fullStream := sampleParts;
     streamFailure := None;
     text := inr "Hi";
     toolCalls := inr (JArr []);
     toolResults := inr (JArr []) |}.

Definition sampleError : Error :=
  ErrorObject "request failed" (Some (Plain (JObj [("code", JNum 503)]))).

Definition failingResult : StreamResult :=
  {| fullStream := sampleParts;
     streamFailure := Some sampleError;
     text := inr "";
     toolCalls := inr (JArr []);
     toolResults := inr (JArr []) |}.

(** An error whose cause is a string, as [new Error(m, { cause: "timeout" })]. *)
Definition stringCauseError : Error :=
  ErrorObject "request failed" (Some (Plain (JStr "timeout"))).

(** An error whose cause refers to itself, as
    [const c = {}; c.self = c; new Error(m, { cause: c })]. *)
Definition cyclicCauseError : Error :=
  ErrorObject "request failed" (Some Unserialisable).

(** A stream call that delivers its parts and then rejects with it. *)
Definition cyclicFailingResult : StreamResult :=
  {| fullStream := sampleParts;
     streamFailure := Some cyclicCauseError;
     text := inr "";
     toolCalls := inr (JArr []);
     toolResults := inr (JArr []) |}.

(** [ANTHROPIC_API_KEY=] (set, empty) next to a real OpenAI key. *)
Definition emptyAnthropicEnv : Env :=
  {| ANTHROPIC_API_KEY := Some ""; OPENAI_API_KEY := Some "sk-test" |}.

(** Two panels of different lengths: one line on the left, three on the
    right. *)
Definition unevenUI : UI :=
  logRight "third" (logRight "second" (logRight "first" (logLeft "only" sampleUI))).

(** A line of the short left panel is half of its scroll range, a line
    of the longer right panel a tenth. *)
Definition unevenTarget (b : Box) (offset : Z) : Z :=
  scrollPerc b + offset * (if (String.length (content b) <=? 4)%nat then 50 else 10).

(** The two panels of [unevenUI], scrolled to the top. *)
Definition topUI : UI := setScrollPerc LeftSide 0 unevenUI.

Definition sampleSchedule : list Side :=
  [RightSide; LeftSide; LeftSide; RightSide; RightSide; LeftSide].

(** The screen after the script has run with a failing left call. *)
Definition sampleFinal : UI :=
  exec (program sampleSchedule failingResult sampleResult) (initialUI "GPT-4o Mini" 24).

Definition bothKeysEnv : Env :=
  {| ANTHROPIC_API_KEY := Some "sk-ant-test"; OPENAI_API_KEY := Some "sk-test" |}.

Definition openaiOnlyEnv : Env :=
  {| ANTHROPIC_API_KEY := None; OPENAI_API_KEY := Some "sk-test" |}.

Definition noKeysEnv : Env :=
  {| ANTHROPIC_API_KEY := None; OPENAI_API_KEY := None |}.

(** ** Further definitions *)

(** The replacer of [formatPart], lines 194-199, on one property. *)
Definition replacer (key : string) (value : JValue) : JValue :=
  match value with
  | JErr name message =>
      if String.eqb key "error"
      then JObj [("name", JStr name); ("message", JStr message)]
      else value
  | _ => value
  end.

(** The replacer applied the way [JSON.stringify] applies it: to the
    root under the empty key, then to every property of the result. *)
Fixpoint replaced (key : string) (v : JValue) : JValue :=
  match v with
  | JArr items => JArr (map (replaced "") items)
  | JObj fields => JObj (map (fun kv => (fst kv, replaced (fst kv) (snd kv))) fields)
  | _ => replacer key v
  end.

(** An [Error] instance occurs somewhere in the value. *)
Fixpoint hasError (v : JValue) : bool :=
  match v with
  | JErr _ _ => true
  | JArr items => existsb hasError items
  | JObj fields => existsb (fun kv => hasError (snd kv)) fields
  | _ => false
  end.

(** The presses of the focus key that reach the screen before the
    process exits. *)
Fixpoint tabsPressed (inputs : list Input) : nat :=
  match inputs with
  | [] => 0
  | Pressed KeyTab :: rest => S (tabsPressed rest)
  | Pressed KeyQ :: _ => 0
  | Pressed KeyCtrlC :: _ => 0
  | _ :: rest => tabsPressed rest
  end.

(** The first line a consumer appends, lines 204 and 237. *)
Definition startLine (s : Side) : string :=
  match s with
  | LeftSide => "{yellow-fg}Starting test (ai.streamText)...{/yellow-fg}" ++ nl
  | RightSide => "{yellow-fg}Starting test (wrappedStreamText)...{/yellow-fg}" ++ nl
  end.

(** The guard is free and both panels stand at one percentage within
    [0,100]. *)
Definition mirrored (ui : UI) : Prop :=
  syncing ui = false
  /\ scrollPerc (leftBox ui) = scrollPerc (rightBox ui)
  /\ 0 <= scrollPerc (leftBox ui) <= 100.

(** The follow-up promises of a consumer in the order of the source,
    lines 220-222 and 253, each with the way it settles. *)
Definition settles (s : Side) (result : StreamResult) : list (Awaited * option Error) :=
  match s with
  | LeftSide => [(FinalText, settlement (text result));
                 (ToolCalls, settlement (toolCalls result));
                 (ToolResults, settlement (toolResults result))]
  | RightSide => [(ToolResults, settlement (toolResults result))]
  end.

(** Awaiting promises one after the other until one is rejected: the
    promises awaited, the rejected one last, and the rejection. *)
Fixpoint untilRejected (promises : list (Awaited * option Error))
    : list Awaited * option Error :=
  match promises with
  | [] => ([], None)
  | (what, Some e) :: _ => ([what], Some e)
  | (what, None) :: rest =>
      let (awaited, outcome) := untilRejected rest in (what :: awaited, outcome)
  end.

(** A turn that ends the process: a press of [q] or [Ctrl-C]. *)
Definition isQuit (i : Input) : bool :=
  match i with
  | Pressed KeyQ | Pressed KeyCtrlC => true
  | _ => false
  end.

(** A stream call whose [text] retrieval is rejected. *)
Definition textFailingResult : StreamResult :=
  {| fullStream := sampleParts;
     streamFailure := None;
     text := inl sampleError;
     toolCalls := inr (JArr []);
     toolResults := inr (JArr []) |}.

(** * Properties *)

(** ** Evaluation on sample inputs *)

Example formatPart_error_part :
  formatPart (JObj [("type", JStr "error"); ("error", JErr "TypeError" "boom")])
  = "{" ++ nl
    ++ "  " ++ dquote ++ "type" ++ dquote ++ ": " ++ dquote ++ "error" ++ dquote ++ "," ++ nl
    ++ "  " ++ dquote ++ "error" ++ dquote ++ ": {" ++ nl
    ++ "    " ++ dquote ++ "name" ++ dquote ++ ": " ++ dquote ++ "TypeError" ++ dquote ++ "," ++ nl
    ++ "    " ++ dquote ++ "message" ++ dquote ++ ": " ++ dquote ++ "boom" ++ dquote ++ nl
    ++ "  }" ++ nl
    ++ "}".
Proof. vm_compute. reflexivity. Qed.

Example stringify_error_elsewhere :
  JSON_stringify (JObj [("error", JErr "TypeError" "boom"); ("retries", JArr [JNum 1; JNum (-2)])])
  = "{" ++ nl
    ++ "  " ++ dquote ++ "error" ++ dquote ++ ": {}," ++ nl
    ++ "  " ++ dquote ++ "retries" ++ dquote ++ ": [" ++ nl
    ++ "    1," ++ nl
    ++ "    -2" ++ nl
    ++ "  ]" ++ nl
    ++ "}".
Proof. vm_compute. reflexivity. Qed.

Example quoteJSON_escapes :
  quoteJSON ("a" ++ nl ++ dquote ++ backslash)
  = dquote ++ "a" ++ backslash ++ "n" ++ backslash ++ dquote ++ backslash ++ backslash ++ dquote.
Proof. vm_compute. reflexivity. Qed.

Example causeLine_sample :
  causeLine (JObj [("code", JNum 503)])
  = "Cause: {" ++ nl ++ "  " ++ dquote ++ "code" ++ dquote ++ ": 503" ++ nl ++ "}".
Proof. vm_compute. reflexivity. Qed.

Example sampleFinal_left :
  leftLines sampleFinal
  = [ "{yellow-fg}Starting test (ai.streamText)...{/yellow-fg}" ++ nl;
      "{cyan-fg}Part:{/cyan-fg}";
      "{" ++ nl ++ "  " ++ dquote ++ "type" ++ dquote ++ ": " ++ dquote ++ "start" ++ dquote
          ++ nl ++ "}";
      "";
      "{cyan-fg}Part:{/cyan-fg}";
      "{" ++ nl ++ "  " ++ dquote ++ "type" ++ dquote ++ ": " ++ dquote ++ "text-delta" ++ dquote
          ++ "," ++ nl ++ "  " ++ dquote ++ "text" ++ dquote ++ ": " ++ dquote ++ "Hi" ++ dquote
          ++ nl ++ "}";
      "";
      "{red-fg}Error: request failed{/red-fg}";
      "Cause: {" ++ nl ++ "  " ++ dquote ++ "code" ++ dquote ++ ": 503" ++ nl ++ "}";
      nl ++ "{bold}Press q to quit{/bold}" ].
Proof. vm_compute. reflexivity. Qed.

Example sampleFinal_right :
  rightLines sampleFinal
  = [ "{yellow-fg}Starting test (wrappedStreamText)...{/yellow-fg}" ++ nl;
      "{cyan-fg}Part:{/cyan-fg}";
      "{" ++ nl ++ "  " ++ dquote ++ "type" ++ dquote ++ ": " ++ dquote ++ "start" ++ dquote
          ++ nl ++ "}";
      "";
      "{cyan-fg}Part:{/cyan-fg}";
      "{" ++ nl ++ "  " ++ dquote ++ "type" ++ dquote ++ ": " ++ dquote ++ "text-delta" ++ dquote
          ++ "," ++ nl ++ "  " ++ dquote ++ "text" ++ dquote ++ ": " ++ dquote ++ "Hi" ++ dquote
          ++ nl ++ "}";
      "";
      "{yellow-fg}=== Tool Results ==={/yellow-fg}";
      "[]";
      "";
      "{green-fg}Done!{/green-fg}";
      nl ++ "{bold}Press q to quit{/bold}" ].
Proof. vm_compute. reflexivity. Qed.

Example sampleFinal_scroll :
  scrollPerc (leftBox sampleFinal) = 100 /\ scrollPerc (rightBox sampleFinal) = 100
  /\ syncing sampleFinal = false.
Proof. vm_compute. repeat split. Qed.

Example arrow_keys_move_both_panels :
  scrollPerc (leftBox (onPageDown sampleTarget (setScrollPerc LeftSide 0 unevenUI))) = 100
  /\ scrollPerc (rightBox (onPageDown sampleTarget (setScrollPerc LeftSide 0 unevenUI))) = 100
  /\ scrollPerc (leftBox (onUp sampleTarget unevenUI)) = 90
  /\ scrollPerc (rightBox (onUp sampleTarget unevenUI)) = 90.
Proof. vm_compute. repeat split. Qed.

Example quit_key_exits :
  run sampleTarget [Pressed KeyDown; Pressed KeyQ; Appended LeftSide "late"] sampleUI
  = (fst (run sampleTarget [Pressed KeyDown] sampleUI), Some 0).
Proof. vm_compute. reflexivity. Qed.

(** ** The synchroniser *)

Lemma clampPerc_range (p : Z) : 0 <= clampPerc p <= 100.
Proof. unfold clampPerc. lia. Qed.

Lemma clampPerc_fixed (p : Z) : 0 <= p <= 100 -> clampPerc p = p.
Proof. unfold clampPerc. lia. Qed.

Lemma clampPerc_idem (p : Z) : clampPerc (clampPerc p) = clampPerc p.
Proof. apply clampPerc_fixed, clampPerc_range. Qed.

Lemma other_involutive (s : Side) : other (other s) = s.
Proof. destruct s; reflexivity. Qed.

Lemma Side_eqb_refl (s : Side) : Side_eqb s s = true.
Proof. destruct s; reflexivity. Qed.

Lemma Side_eqb_other (s : Side) : Side_eqb s (other s) = false.
Proof. destruct s; reflexivity. Qed.

(** A call that finds the flag held gives the state back as it got it. *)
Lemma syncScroll_held (source target : Side) (ui : UI) :
  syncing ui = true -> syncScroll source target ui = ui.
Proof.
  intros Hheld. unfold syncScroll. simpl. rewrite Hheld. reflexivity.
Qed.

(** A call that finds the flag free takes it, copies the percentage of
    the source to the target, renders once and gives the flag back. *)
Lemma syncScroll_free (source target : Side) (ui : UI) :
  syncing ui = false ->
  syncScroll source target ui
  = setSyncing false source
      (render (setBox target
                 (Box_moveTo (Box_getScrollPerc (getBox source ui)) (getBox target ui))
                 (setSyncing true source ui))).
Proof.
  intros Hfree. unfold syncScroll. simpl. rewrite Hfree.
  unfold setScrollPercWith, onScroll. simpl.
  destruct source, target; reflexivity.
Qed.

(** Two levels of recursion are all the synchroniser ever uses. *)
Lemma syncScrollFuel_enough (n : nat) (source target : Side) (ui : UI) :
  syncScrollFuel (S (S n)) source target ui = Some (syncScroll source target ui).
Proof.
  unfold syncScroll. simpl.
  destruct (syncing ui) eqn:Hs; [reflexivity|].
  unfold setScrollPercWith, onScroll.
  destruct n; simpl; destruct source, target; reflexivity.
Qed.

(** The total setter is the setter with its listener, at any sufficient
    depth. *)
Lemma setScrollPercWith_enough (n : nat) (s : Side) (p : Z) (ui : UI) :
  setScrollPercWith (syncScrollFuel (S (S n))) s p ui = Some (setScrollPerc s p ui).
Proof. unfold setScrollPercWith, onScroll, setScrollPerc. apply syncScrollFuel_enough. Qed.

(** Toggling the focus twice restores it. *)
Lemma onTab_twice (ui : UI) : focusedBox (onTab (onTab ui)) = focusedBox ui.
Proof. unfold onTab. destruct (focusedBox ui) eqn:Hf; simpl; reflexivity. Qed.

(** With one level only, a call that finds the flag free cannot finish. *)
Lemma syncScrollFuel_one (source target : Side) (ui : UI) :
  syncing ui = false -> syncScrollFuel 1 source target ui = None.
Proof. intros Hfree. simpl. rewrite Hfree. reflexivity. Qed.

Lemma guardRun_app (held : option Side) (l1 l2 : list GuardEvent) :
  guardRun held (l1 ++ l2)
  = match guardRun held l1 with
    | Some held' => guardRun held' l2
    | None => None
    end.
Proof.
  revert held. induction l1 as [|ev l1 IH]; intros held; simpl.
  - reflexivity.
  - destruct ev as [s|s]; destruct held as [s'|]; try reflexivity.
    + apply IH.
    + destruct (Side_eqb s s'); [apply IH | reflexivity].
Qed.

(** One synchronisation, started with the flag free, keeps the discipline. *)
Lemma syncScroll_disciplined (source target : Side) (ui : UI) :
  disciplined ui -> disciplined (syncScroll source target ui).
Proof.
  intros [Hfree Hlog]. rewrite syncScroll_free by assumption.
  split; [reflexivity|]. simpl.
  rewrite <- app_assoc, guardRun_app, Hlog. simpl.
  rewrite Side_eqb_refl. reflexivity.
Qed.

Lemma setBox_disciplined (s : Side) (b : Box) (ui : UI) :
  disciplined ui -> disciplined (setBox s b ui).
Proof. intros H. exact H. Qed.

Lemma setScrollPerc_disciplined (s : Side) (p : Z) (ui : UI) :
  disciplined ui -> disciplined (setScrollPerc s p ui).
Proof.
  intros H. unfold setScrollPerc.
  apply syncScroll_disciplined, setBox_disciplined, H.
Qed.

Lemma logTo_disciplined (s : Side) (msg : string) (ui : UI) :
  disciplined ui -> disciplined (logTo s msg ui).
Proof.
  intros H. destruct s; unfold logTo, logLeft, logRight;
    apply syncScroll_disciplined, setScrollPerc_disciplined, setBox_disciplined, H.
Qed.

Section KeyProperties.

Variable lineTarget : Box -> Z -> Z.

Lemma scroll_disciplined (s : Side) (offset : Z) (ui : UI) :
  disciplined ui -> disciplined (scroll lineTarget s offset ui).
Proof. intros H. unfold scroll. apply setScrollPerc_disciplined, H. Qed.

(** A press that does not end the process: the screen handler ran,
    then the binding of the box that had the focus. *)
Lemma press_continue (k : Key) (ui ui' : UI) :
  press lineTarget k ui = Continue ui' ->
  exists ui1,
    onKey lineTarget k ui = Continue ui1
    /\ ui' = ownKey lineTarget k (focusedBox ui) ui1.
Proof.
  unfold press. destruct (onKey lineTarget k ui) as [ui1|code]; intros H.
  - inversion H; subst. exists ui1. split; reflexivity.
  - discriminate H.
Qed.

Lemma onKey_disciplined (k : Key) (ui ui' : UI) :
  disciplined ui -> onKey lineTarget k ui = Continue ui' -> disciplined ui'.
Proof.
  intros H Hstep.
  destruct k; simpl in Hstep; inversion Hstep; subst;
    unfold onUp, onDown, onPageUp, onPageDown, onHome, onEnd, onTab;
    try (apply syncScroll_disciplined;
         first [apply scroll_disciplined | apply setScrollPerc_disciplined]);
    try exact H.
  destruct (focusedBox ui); exact H.
Qed.

Lemma render_disciplined (ui : UI) : disciplined ui -> disciplined (render ui).
Proof. intros H. exact H. Qed.

Lemma ownKey_disciplined (k : Key) (focused : Side) (ui : UI) :
  disciplined ui -> disciplined (ownKey lineTarget k focused ui).
Proof.
  intros H. unfold ownKey. destruct (boxKeys k) as [[offset| |]|]; try exact H;
    apply render_disciplined;
    first [apply scroll_disciplined | apply setScrollPerc_disciplined]; exact H.
Qed.

Lemma handle_disciplined (i : Input) (ui ui' : UI) :
  disciplined ui -> handle lineTarget i ui = Continue ui' -> disciplined ui'.
Proof.
  intros H Hstep. destruct i as [s p|s offset|k|s msg]; simpl in Hstep.
  - inversion Hstep; subst. apply setScrollPerc_disciplined, H.
  - inversion Hstep; subst. apply scroll_disciplined, H.
  - destruct (press_continue k ui ui' Hstep) as [ui1 [H1 Hown]]. subst ui'.
    apply ownKey_disciplined. eapply onKey_disciplined; eassumption.
  - inversion Hstep; subst. apply logTo_disciplined, H.
Qed.

Lemma run_disciplined (inputs : list Input) (ui : UI) :
  disciplined ui -> disciplined (fst (run lineTarget inputs ui)).
Proof.
  revert ui. induction inputs as [|i rest IH]; intros ui H; simpl.
  - exact H.
  - destruct (handle lineTarget i ui) as [ui'|code] eqn:Hstep.
    + apply IH. eapply handle_disciplined; eauto.
    + exact H.
Qed.

End KeyProperties.

(** C5 (SyncGuard non-reentrancy).  Start from a state in which the guard
    is free and its log of writes is a sequence of matched pairs, and let
    any sequence of turns run: scroll events of either panel in any
    order, key presses, appends.  Then the guard is free again at the end
    and the log is still a sequence of matched pairs: no acquisition ever
    happened while the guard was held.  Moreover a [syncScroll] call that
    finds the guard held returns the state as it was, as does the
    listener a propagation triggers on its target; and a call that finds
    it free sets the flag, mirrors the percentage, renders, and clears
    the flag. *)
Theorem syncGuard_non_reentrant
    (lineTarget : Box -> Z -> Z) (inputs : list Input) (ui : UI) :
  syncing ui = false ->
  guardRun None (guardLog ui) = Some None ->
  syncing (fst (run lineTarget inputs ui)) = false
  /\ guardRun None (guardLog (fst (run lineTarget inputs ui))) = Some None
  /\ (forall source target held,
        syncing held = true -> syncScroll source target held = held)
  /\ (forall n s held,
        syncing held = true -> onScroll (syncScrollFuel (S n)) s held = Some held)
  /\ (forall source target free,
        syncing free = false ->
        syncScroll source target free
        = setSyncing false source
            (render (setBox target
                       (Box_moveTo (Box_getScrollPerc (getBox source free))
                                   (getBox target free))
                       (setSyncing true source free)))).
Proof.
  intros Hfree Hlog.
  destruct (run_disciplined lineTarget inputs ui (conj Hfree Hlog)) as [H1 H2].
  repeat split; try assumption.
  - intros. now apply syncScroll_held.
  - intros n s held Hheld. unfold onScroll. simpl. now rewrite Hheld.
  - intros. now apply syncScroll_free.
Qed.

Lemma syncGuard_non_reentrant_witness :
  syncing sampleUI = false
  /\ guardRun None (guardLog sampleUI) = Some None
  /\ syncing (fst (run sampleTarget
                    [Scrolled LeftSide 40; Scrolled RightSide 70;
                     Appended LeftSide "line"; Pressed KeyDown; Wheel RightSide (-2)]
                    sampleUI)) = false.
Proof.
  split; [reflexivity|]. split; [reflexivity|].
  exact (proj1 (syncGuard_non_reentrant sampleTarget
                  [Scrolled LeftSide 40; Scrolled RightSide 70;
                   Appended LeftSide "line"; Pressed KeyDown; Wheel RightSide (-2)]
                  sampleUI eq_refl eq_refl)).
Defined.

(** C6 (scroll mirroring).  Whatever the two panels contain, when panel
    [A] is set to a percentage [p1] while the guard is free, then after
    the synchronisation this triggers the other panel stands at the
    percentage of [A], which is [p1] brought into [0,100]; no content or
    line count enters the computation, and both contents are as before. *)
Theorem scroll_mirroring (A : Side) (p1 : Z) (ui : UI) :
  syncing ui = false ->
  scrollPerc (getBox (other A) (setScrollPerc A p1 ui))
  = scrollPerc (getBox A (setScrollPerc A p1 ui))
  /\ scrollPerc (getBox A (setScrollPerc A p1 ui)) = clampPerc p1
  /\ content (getBox A (setScrollPerc A p1 ui)) = content (getBox A ui)
  /\ content (getBox (other A) (setScrollPerc A p1 ui)) = content (getBox (other A) ui)
  /\ syncing (setScrollPerc A p1 ui) = false.
Proof.
  intros Hfree. unfold setScrollPerc.
  rewrite syncScroll_free by exact Hfree.
  destruct A; simpl; rewrite clampPerc_idem; repeat split; reflexivity.
Qed.

Lemma scroll_mirroring_witness :
  syncing unevenUI = false
  /\ (scrollPerc (getBox (other LeftSide) (setScrollPerc LeftSide 37 unevenUI))
      = scrollPerc (getBox LeftSide (setScrollPerc LeftSide 37 unevenUI))
      /\ scrollPerc (getBox LeftSide (setScrollPerc LeftSide 37 unevenUI)) = clampPerc 37
      /\ content (getBox LeftSide (setScrollPerc LeftSide 37 unevenUI))
         = content (getBox LeftSide unevenUI)
      /\ content (getBox (other LeftSide) (setScrollPerc LeftSide 37 unevenUI))
         = content (getBox (other LeftSide) unevenUI)
      /\ syncing (setScrollPerc LeftSide 37 unevenUI) = false).
Proof.
  split; [reflexivity|].
  apply (scroll_mirroring LeftSide 37 unevenUI). reflexivity.
Defined.

(** ** Appending *)

(** What one append changes and what it leaves alone, whatever the state
    of the guard. *)
Lemma logTo_effect (s : Side) (msg : string) (ui : UI) :
  getLines s (logTo s msg ui) = (getLines s ui ++ [msg])%list
  /\ getLines (other s) (logTo s msg ui) = getLines (other s) ui
  /\ content (getBox s (logTo s msg ui)) = join nl (getLines s ui ++ [msg])
  /\ content (getBox (other s) (logTo s msg ui)) = content (getBox (other s) ui)
  /\ scrollPerc (getBox s (logTo s msg ui)) = 100
  /\ syncing (logTo s msg ui) = syncing ui.
Proof.
  destruct (syncing ui) eqn:Hs.
  - destruct s; unfold logTo, logLeft, logRight, setScrollPerc;
      rewrite (syncScroll_held _ _ (setBox _ _ _)) by exact Hs;
      rewrite syncScroll_held by exact Hs;
      simpl; repeat split; assumption || reflexivity.
  - destruct s; unfold logTo, logLeft, logRight, setScrollPerc;
      rewrite (syncScroll_free _ _ (setBox _ _ _)) by exact Hs;
      rewrite syncScroll_free by reflexivity;
      simpl; repeat split; reflexivity.
Qed.

Lemma appendAll_lines (s : Side) (msgs : list string) (ui : UI) :
  getLines s (appendAll s msgs ui) = (getLines s ui ++ msgs)%list.
Proof.
  revert ui. induction msgs as [|msg rest IH]; intros ui; simpl.
  - now rewrite app_nil_r.
  - unfold appendAll in *. simpl. rewrite IH.
    destruct (logTo_effect s msg ui) as [Hl _]. rewrite Hl.
    now rewrite <- app_assoc.
Qed.

(** The box shows the joined lines once something has been appended. *)
Lemma appendAll_content (s : Side) (msgs : list string) (ui : UI) :
  msgs <> [] ->
  content (getBox s (appendAll s msgs ui)) = join nl (getLines s ui ++ msgs).
Proof.
  revert ui. induction msgs as [|msg rest IH]; intros ui Hne; [congruence|].
  unfold appendAll in *. simpl.
  destruct (logTo_effect s msg ui) as [Hl [_ [Hc _]]].
  destruct rest as [|msg' rest'].
  - simpl. exact Hc.
  - rewrite IH by discriminate. rewrite Hl. now rewrite <- app_assoc.
Qed.

(** Scrolling never touches the line arrays. *)
Lemma syncScroll_lines (s source target : Side) (ui : UI) :
  getLines s (syncScroll source target ui) = getLines s ui.
Proof.
  destruct (syncing ui) eqn:Hs.
  - now rewrite syncScroll_held.
  - rewrite syncScroll_free by exact Hs. destruct s, target; reflexivity.
Qed.

Lemma setScrollPerc_lines (s side : Side) (p : Z) (ui : UI) :
  getLines s (setScrollPerc side p ui) = getLines s ui.
Proof.
  unfold setScrollPerc. rewrite syncScroll_lines. destruct s, side; reflexivity.
Qed.

(** A turn of the event loop only ever adds lines to a panel. *)
Lemma handle_lines (lineTarget : Box -> Z -> Z) (s : Side) (i : Input) (ui ui' : UI) :
  handle lineTarget i ui = Continue ui' ->
  exists added, getLines s ui' = (getLines s ui ++ added)%list.
Proof.
  intros Hstep. destruct i as [side p|side offset|k|side msg]; simpl in Hstep.
  - inversion Hstep; subst. exists []. now rewrite setScrollPerc_lines, app_nil_r.
  - inversion Hstep; subst. exists []. unfold scroll.
    now rewrite setScrollPerc_lines, app_nil_r.
  - exists []. rewrite app_nil_r.
    unfold press in Hstep.
    destruct (onKey lineTarget k ui) as [ui1|code] eqn:Hscreen; [|discriminate Hstep].
    inversion Hstep; subst; clear Hstep.
    assert (Hown : getLines s (ownKey lineTarget k (focusedBox ui) ui1) = getLines s ui1).
    { unfold ownKey, scroll. destruct (boxKeys k) as [[offset| |]|]; try reflexivity.
      - transitivity (getLines s (setScrollPerc (focusedBox ui)
                                   (lineTarget (getBox (focusedBox ui) ui1) offset) ui1));
          [destruct s; reflexivity | apply setScrollPerc_lines].
      - transitivity (getLines s (setScrollPerc (focusedBox ui) 0 ui1));
          [destruct s; reflexivity | apply setScrollPerc_lines].
      - transitivity (getLines s (setScrollPerc (focusedBox ui) 100 ui1));
          [destruct s; reflexivity | apply setScrollPerc_lines]. }
    rewrite Hown. clear Hown.
    destruct k; simpl in Hscreen; inversion Hscreen; subst;
      unfold onUp, onDown, onPageUp, onPageDown, onHome, onEnd, onTab, scroll;
      rewrite ?syncScroll_lines, ?setScrollPerc_lines; try reflexivity.
    destruct (focusedBox ui), s; reflexivity.
  - inversion Hstep; subst.
    destruct (logTo_effect side msg ui) as [Hown [Hother _]].
    destruct side, s; simpl in *.
    + exists [msg]. exact Hown.
    + exists []. now rewrite app_nil_r.
    + exists []. now rewrite app_nil_r.
    + exists [msg]. exact Hown.
Qed.

Lemma run_lines (lineTarget : Box -> Z -> Z) (s : Side) (inputs : list Input) (ui : UI) :
  exists added,
    getLines s (fst (run lineTarget inputs ui)) = (getLines s ui ++ added)%list.
Proof.
  revert ui. induction inputs as [|i rest IH]; intros ui; simpl.
  - exists []. now rewrite app_nil_r.
  - destruct (handle lineTarget i ui) as [ui'|code] eqn:Hstep.
    + destruct (handle_lines lineTarget s i ui ui' Hstep) as [a1 H1].
      destruct (IH ui') as [a2 H2].
      exists (a1 ++ a2)%list. now rewrite H2, H1, <- app_assoc.
    + exists []. now rewrite app_nil_r.
Qed.

(** C7 (append contract).  After any sequence of appends to a panel, the
    line array of that panel is what it was followed by the appended
    messages in call order; started on the empty screen it is exactly
    those messages and the box shows them joined by newlines.  Right
    after any single append the panel's scroll percentage reads 100.
    Nothing is ever removed or reordered: over any sequence of turns of
    the event loop (scrolls, keys, appends to either panel) the lines a
    panel had are a prefix of the lines it has afterwards. *)
Theorem append_contract (s : Side) (msgs : list string) :
  (forall ui, getLines s (appendAll s msgs ui) = (getLines s ui ++ msgs)%list)
  /\ (forall modelName rows,
        getLines s (appendAll s msgs (initialUI modelName rows)) = msgs
        /\ content (getBox s (appendAll s msgs (initialUI modelName rows)))
           = join nl msgs)
  /\ (forall msg ui,
        Box_getScrollPerc (getBox s (logTo s msg ui)) = 100
        /\ getLines s (logTo s msg ui) = (getLines s ui ++ [msg])%list
        /\ content (getBox s (logTo s msg ui)) = join nl (getLines s ui ++ [msg]))
  /\ (forall lineTarget inputs ui,
        exists added,
          getLines s (fst (run lineTarget inputs ui)) = (getLines s ui ++ added)%list).
Proof.
  split; [|split; [|split]]; [| | |intros; apply run_lines].
  - intros ui. apply appendAll_lines.
  - intros modelName rows. split.
    + rewrite appendAll_lines. destruct s; reflexivity.
    + destruct msgs as [|msg rest].
      * destruct s; reflexivity.
      * rewrite appendAll_content by discriminate. destruct s; reflexivity.
  - intros msg ui.
    destruct (logTo_effect s msg ui) as [Hl [_ [Hc [_ [Hp _]]]]].
    repeat split; assumption.
Qed.

(** C10 (an append also moves the other panel).  With the guard free, an
    append to panel [X] leaves the other panel at the scroll percentage
    of [X], which is 100, while the other panel's lines and content stay
    as they were. *)
Theorem append_syncs_other_panel (X : Side) (msg : string) (ui : UI) :
  syncing ui = false ->
  scrollPerc (getBox (other X) (logTo X msg ui)) = scrollPerc (getBox X (logTo X msg ui))
  /\ scrollPerc (getBox (other X) (logTo X msg ui)) = 100
  /\ getLines (other X) (logTo X msg ui) = getLines (other X) ui
  /\ content (getBox (other X) (logTo X msg ui)) = content (getBox (other X) ui).
Proof.
  intros Hfree.
  destruct (logTo_effect X msg ui) as [_ [Hl [_ [Hc [Hp _]]]]].
  rewrite Hp. repeat split; try assumption.
  all: destruct X; unfold logTo, logLeft, logRight, setScrollPerc;
    rewrite (syncScroll_free _ _ (setBox _ _ _)) by exact Hfree;
    rewrite syncScroll_free by reflexivity; reflexivity.
Qed.

Lemma append_syncs_other_panel_witness :
  syncing (setScrollPerc RightSide 20 unevenUI) = false
  /\ (scrollPerc (getBox (other LeftSide) (logTo LeftSide "new" (setScrollPerc RightSide 20 unevenUI)))
      = scrollPerc (getBox LeftSide (logTo LeftSide "new" (setScrollPerc RightSide 20 unevenUI)))
      /\ scrollPerc (getBox (other LeftSide) (logTo LeftSide "new" (setScrollPerc RightSide 20 unevenUI)))
         = 100
      /\ getLines (other LeftSide) (logTo LeftSide "new" (setScrollPerc RightSide 20 unevenUI))
         = getLines (other LeftSide) (setScrollPerc RightSide 20 unevenUI)
      /\ content (getBox (other LeftSide) (logTo LeftSide "new" (setScrollPerc RightSide 20 unevenUI)))
         = content (getBox (other LeftSide) (setScrollPerc RightSide 20 unevenUI))).
Proof.
  split; [reflexivity|].
  apply (append_syncs_other_panel LeftSide "new" (setScrollPerc RightSide 20 unevenUI)).
  reflexivity.
Defined.

(** ** Keys *)

Lemma render_frame (ui : UI) :
  (forall s, getBox s (render ui) = getBox s ui)
  /\ focusedBox (render ui) = focusedBox ui
  /\ guardLog (render ui) = guardLog ui
  /\ syncing (render ui) = syncing ui.
Proof. split; [intros s; destruct s; reflexivity|]. repeat split. Qed.

(** The setter with its listener, called with the guard free: the box
    and its mirror end at the clamped percentage, through one guarded
    synchronisation. *)
Lemma setScrollPerc_free (s : Side) (p : Z) (ui : UI) :
  syncing ui = false ->
  scrollPerc (getBox s (setScrollPerc s p ui)) = clampPerc p
  /\ scrollPerc (getBox (other s) (setScrollPerc s p ui)) = clampPerc p
  /\ (forall x, content (getBox x (setScrollPerc s p ui)) = content (getBox x ui))
  /\ focusedBox (setScrollPerc s p ui) = focusedBox ui
  /\ syncing (setScrollPerc s p ui) = false
  /\ guardLog (setScrollPerc s p ui) = (guardLog ui ++ [Acquire s; Release s])%list.
Proof.
  intros Hfree. unfold setScrollPerc.
  rewrite syncScroll_free by exact Hfree.
  destruct s; simpl; rewrite ?clampPerc_idem, <- ?app_assoc;
    (split; [reflexivity|]); (split; [reflexivity|]);
    (split; [intros x; destruct x; reflexivity|]); repeat split.
Qed.

(** The screen handler of a scroll key, called with the guard free. *)
Lemma onKey_scroll (lineTarget : Box -> Z -> Z) (k : Key) (ui : UI) :
  isScrollKey k = true ->
  syncing ui = false ->
  exists ui',
    onKey lineTarget k ui = Continue ui'
    /\ scrollPerc (leftBox ui') = clampPerc (keyRequest lineTarget k (leftBox ui))
    /\ scrollPerc (rightBox ui') = scrollPerc (leftBox ui')
    /\ content (leftBox ui') = content (leftBox ui)
    /\ content (rightBox ui') = content (rightBox ui)
    /\ focusedBox ui' = focusedBox ui
    /\ guardLog ui'
       = (guardLog ui ++ [Acquire LeftSide; Release LeftSide;
                          Acquire LeftSide; Release LeftSide])%list
    /\ (forall focus,
          onKey lineTarget k (setFocus focus ui) = Continue (setFocus focus ui'))
    /\ syncing ui' = false.
Proof.
  intros Hkey Hfree.
  destruct k; try discriminate Hkey; simpl;
    eexists; (split; [reflexivity|]);
    unfold onUp, onDown, onPageUp, onPageDown, onHome, onEnd, scroll, setScrollPerc;
    rewrite (syncScroll_free _ _ (setBox _ _ _)) by exact Hfree;
    rewrite syncScroll_free by reflexivity;
    simpl; rewrite ?clampPerc_idem, <- ?app_assoc;
    (do 6 (split; [reflexivity|])); (split; [|reflexivity]);
    intros focus;
    rewrite (syncScroll_free _ _ (setBox _ _ _)) by exact Hfree;
    rewrite syncScroll_free by reflexivity;
    simpl; reflexivity.
Qed.

(** C8, as amended (global scroll keys).  For each of the scroll keys and
    whatever panel has the focus, the handler registered on the screen
    applies the scroll to the left panel, which it leaves at the
    percentage the key asks of the left box, and the synchroniser, run
    with the left panel as source, leaves the right panel at that
    percentage; the handler neither reads nor changes the focus, so with
    the focus elsewhere it gives the same panels.  For pageup, pagedown,
    home and end that is the whole press.  For up/k, down/j, g and S-g
    the box that has the focus then handles the key as well: it applies
    the same action to itself, starting from where the handler left it,
    and its scroll listener copies the result to the other panel. *)
Theorem global_scroll_keys_use_left_panel
    (lineTarget : Box -> Z -> Z) (k : Key) (ui : UI) :
  isScrollKey k = true ->
  syncing ui = false ->
  exists ui1,
    onKey lineTarget k ui = Continue ui1
    /\ scrollPerc (leftBox ui1) = clampPerc (keyRequest lineTarget k (leftBox ui))
    /\ scrollPerc (rightBox ui1) = scrollPerc (leftBox ui1)
    /\ content (leftBox ui1) = content (leftBox ui)
    /\ content (rightBox ui1) = content (rightBox ui)
    /\ focusedBox ui1 = focusedBox ui
    /\ guardLog ui1
       = (guardLog ui ++ [Acquire LeftSide; Release LeftSide;
                          Acquire LeftSide; Release LeftSide])%list
    /\ (forall focus,
          onKey lineTarget k (setFocus focus ui) = Continue (setFocus focus ui1))
    /\ exists ui2,
         press lineTarget k ui = Continue ui2
         /\ match boxKeys k with
            | None => ui2 = ui1
            | Some action =>
                scrollPerc (getBox (focusedBox ui) ui2)
                = clampPerc (boxRequest lineTarget action (getBox (focusedBox ui) ui1))
                /\ scrollPerc (getBox (other (focusedBox ui)) ui2)
                   = scrollPerc (getBox (focusedBox ui) ui2)
                /\ (forall s, content (getBox s ui2) = content (getBox s ui))
                /\ focusedBox ui2 = focusedBox ui
                /\ guardLog ui2
                   = (guardLog ui1 ++ [Acquire (focusedBox ui); Release (focusedBox ui)])%list
            end.
Proof.
  intros Hkey Hfree.
  destruct (onKey_scroll lineTarget k ui Hkey Hfree)
    as [ui1 [Hstep [Hl [Hr [Hcl [Hcr [Hf [Hg [Hfocus Hfree1]]]]]]]]].
  exists ui1. do 8 (split; [assumption|]).
  exists (ownKey lineTarget k (focusedBox ui) ui1).
  split; [unfold press; rewrite Hstep; reflexivity|].
  assert (Hc : forall s, content (getBox s ui1) = content (getBox s ui)).
  { intros s. destruct s; assumption. }
  assert (Hset : forall p,
    scrollPerc (getBox (focusedBox ui) (render (setScrollPerc (focusedBox ui) p ui1)))
    = clampPerc p
    /\ scrollPerc (getBox (other (focusedBox ui))
                     (render (setScrollPerc (focusedBox ui) p ui1)))
       = scrollPerc (getBox (focusedBox ui) (render (setScrollPerc (focusedBox ui) p ui1)))
    /\ (forall s, content (getBox s (render (setScrollPerc (focusedBox ui) p ui1)))
                  = content (getBox s ui))
    /\ focusedBox (render (setScrollPerc (focusedBox ui) p ui1)) = focusedBox ui
    /\ guardLog (render (setScrollPerc (focusedBox ui) p ui1))
       = (guardLog ui1 ++ [Acquire (focusedBox ui); Release (focusedBox ui)])%list).
  { intros p.
    destruct (setScrollPerc_free (focusedBox ui) p ui1 Hfree1)
      as [Hown [Hmirror [Hcontent [Hfocused [_ Hlog]]]]].
    destruct (render_frame (setScrollPerc (focusedBox ui) p ui1))
      as [Hbox [Hrf [Hrg _]]].
    rewrite !Hbox, Hrf, Hrg, Hown, Hmirror, Hfocused, Hf, Hlog.
    split; [reflexivity|]. split; [reflexivity|].
    split; [|split; reflexivity].
    intros s. rewrite Hbox, Hcontent. apply Hc. }
  unfold ownKey, scroll.
  destruct (boxKeys k) as [[offset| |]|]; cbn [boxRequest];
    [apply Hset | apply Hset | apply Hset | reflexivity].
Qed.

Lemma global_scroll_keys_use_left_panel_witness :
  isScrollKey KeyDown = true
  /\ syncing (onTab topUI) = false
  /\ focusedBox (onTab topUI) = RightSide
  /\ exists ui1,
       onKey unevenTarget KeyDown (onTab topUI) = Continue ui1
       /\ scrollPerc (leftBox ui1)
          = clampPerc (keyRequest unevenTarget KeyDown (leftBox (onTab topUI)))
       /\ scrollPerc (rightBox ui1) = scrollPerc (leftBox ui1)
       /\ content (leftBox ui1) = content (leftBox (onTab topUI))
       /\ content (rightBox ui1) = content (rightBox (onTab topUI))
       /\ focusedBox ui1 = focusedBox (onTab topUI)
       /\ guardLog ui1
          = (guardLog (onTab topUI) ++ [Acquire LeftSide; Release LeftSide;
                                        Acquire LeftSide; Release LeftSide])%list
       /\ (forall focus,
             onKey unevenTarget KeyDown (setFocus focus (onTab topUI))
             = Continue (setFocus focus ui1))
       /\ exists ui2,
            press unevenTarget KeyDown (onTab topUI) = Continue ui2
            /\ match boxKeys KeyDown with
               | None => ui2 = ui1
               | Some action =>
                   scrollPerc (getBox (focusedBox (onTab topUI)) ui2)
                   = clampPerc (boxRequest unevenTarget action
                                  (getBox (focusedBox (onTab topUI)) ui1))
                   /\ scrollPerc (getBox (other (focusedBox (onTab topUI))) ui2)
                      = scrollPerc (getBox (focusedBox (onTab topUI)) ui2)
                   /\ (forall s, content (getBox s ui2) = content (getBox s (onTab topUI)))
                   /\ focusedBox ui2 = focusedBox (onTab topUI)
                   /\ guardLog ui2
                      = (guardLog ui1 ++ [Acquire (focusedBox (onTab topUI));
                                          Release (focusedBox (onTab topUI))])%list
               end.
Proof.
  split; [reflexivity|]. split; [reflexivity|]. split; [reflexivity|].
  apply (global_scroll_keys_use_left_panel unevenTarget KeyDown (onTab topUI));
    reflexivity.
Defined.

(** C8, as stated, fails for the keys the boxes bind themselves.  Both
    panels at the top, a line being half of the range of the left panel
    and a tenth of the range of the right one: the handler of [down]
    asks 50 of the left panel.  With the focus on the left panel the
    press leaves both panels at 100, the left panel having scrolled
    twice; after a press of the focus key the same press leaves them at
    60: the right panel, which has the focus, scrolled by a line of its
    own and the left panel followed it. *)
Lemma focused_box_scrolls_too :
  clampPerc (keyRequest unevenTarget KeyDown (leftBox topUI)) = 50
  /\ scrollPerc (leftBox (fst (run unevenTarget [Pressed KeyDown] topUI))) = 100
  /\ scrollPerc (rightBox (fst (run unevenTarget [Pressed KeyDown] topUI))) = 100
  /\ scrollPerc (leftBox (fst (run unevenTarget [Pressed KeyTab; Pressed KeyDown] topUI)))
     = 60
  /\ scrollPerc (rightBox (fst (run unevenTarget [Pressed KeyTab; Pressed KeyDown] topUI)))
     = 60
  /\ scrollPerc (leftBox (fst (run unevenTarget [Pressed KeyTab; Pressed KeyPageDown] topUI)))
     = scrollPerc (leftBox (fst (run unevenTarget [Pressed KeyPageDown] topUI))).
Proof. vm_compute. repeat split. Qed.

(** ** Consumers *)

Lemma forAwait_eq (s : Side) (items : list StreamItem) (failure : option Error) :
  forAwait (log s) items failure (showPart s)
  = (loopActions s items,
     match failure with Some e => inl e | None => inr tt end).
Proof.
  induction items as [|item rest IH]; simpl.
  - reflexivity.
  - destruct item as [part|msg]; rewrite IH; reflexivity.
Qed.

Lemma logged_app (s : Side) (a b : list Action) :
  logged s (a ++ b) = (logged s a ++ logged s b)%list.
Proof.
  induction a as [|x a IH]; simpl; [reflexivity|].
  destruct x as [panel msg|what]; [|exact IH].
  destruct (Side_eqb panel s); simpl; now rewrite IH.
Qed.

Lemma retrievals_app (a b : list Action) :
  retrievals (a ++ b) = (retrievals a ++ retrievals b)%list.
Proof.
  induction a as [|x a IH]; simpl; [reflexivity|].
  destruct x as [panel msg|what]; [exact IH|].
  destruct what; simpl; now rewrite IH.
Qed.

Lemma logged_loopActions (s : Side) (items : list StreamItem) :
  logged s (loopActions s items) = shown items.
Proof.
  induction items as [|item rest IH]; simpl; [reflexivity|].
  destruct item as [part|msg]; simpl; rewrite !Side_eqb_refl, IH; reflexivity.
Qed.

Lemma logged_foreign_loopActions (s panel : Side) (items : list StreamItem) :
  Side_eqb panel s = false -> logged s (loopActions panel items) = [].
Proof.
  intros Hne. induction items as [|item rest IH]; simpl; [reflexivity|].
  destruct item as [part|msg]; simpl; rewrite !Hne, IH; reflexivity.
Qed.

Lemma retrievals_loopActions (s : Side) (items : list StreamItem) :
  retrievals (loopActions s items) = [].
Proof.
  induction items as [|item rest IH]; simpl; [reflexivity|].
  destruct item as [part|msg]; simpl; exact IH.
Qed.

Lemma shown_app (a b : list StreamItem) :
  shown (a ++ b) = (shown a ++ shown b)%list.
Proof.
  induction a as [|item a IH]; simpl; [reflexivity|].
  destruct item as [part|msg]; simpl; now rewrite IH.
Qed.

(** The unwrapped consumer, by the first thing that fails. *)
Lemma testWithoutWrapping_cases (result : StreamResult) :
  testWithoutWrapping result
  = let pre :=
      Log LeftSide ("{yellow-fg}Starting test (ai.streamText)...{/yellow-fg}" ++ nl)
        :: loopActions LeftSide (fullStream result) in
    match streamFailure result with
    | Some e => (pre, inl e)
    | None =>
    match text result with
    | inl e => ((pre ++ [Await FinalText])%list, inl e)
    | inr t =>
    match toolCalls result with
    | inl e => ((pre ++ [Await FinalText; Await ToolCalls])%list, inl e)
    | inr c =>
    match toolResults result with
    | inl e => ((pre ++ [Await FinalText; Await ToolCalls; Await ToolResults])%list, inl e)
    | inr r =>
        ((pre ++ [Await FinalText; Await ToolCalls; Await ToolResults;
                  Log LeftSide finalTextHeader;
                  Log LeftSide (if String.eqb t "" then "(empty)" else t);
                  Log LeftSide "";
                  Log LeftSide toolCallsHeader;
                  Log LeftSide (formatPart c);
                  Log LeftSide "";
                  Log LeftSide toolResultsHeader;
                  Log LeftSide (formatPart r);
                  Log LeftSide "";
                  Log LeftSide doneLine])%list,
         inr tt)
    end end end end.
Proof.
  unfold testWithoutWrapping.
  change (fun part : JValue => _) with (showPart LeftSide) at 1.
  rewrite forAwait_eq.
  destruct (streamFailure result), (text result), (toolCalls result), (toolResults result);
    reflexivity.
Qed.

(** The wrapped consumer, by the first thing that fails. *)
Lemma testWithWrapping_cases (result : StreamResult) :
  testWithWrapping result
  = let pre :=
      Log RightSide ("{yellow-fg}Starting test (wrappedStreamText)...{/yellow-fg}" ++ nl)
        :: loopActions RightSide (fullStream result) in
    match streamFailure result with
    | Some e => (pre, inl e)
    | None =>
    match toolResults result with
    | inl e => ((pre ++ [Await ToolResults])%list, inl e)
    | inr r =>
        ((pre ++ [Await ToolResults;
                  Log RightSide toolResultsHeader;
                  Log RightSide (formatPart r);
                  Log RightSide "";
                  Log RightSide doneLine])%list,
         inr tt)
    end end.
Proof.
  unfold testWithWrapping.
  change (fun part : JValue => _) with (showPart RightSide) at 1.
  rewrite forAwait_eq.
  destruct (streamFailure result), (toolResults result); reflexivity.
Qed.

(** A consumer appends to its own panel only. *)
Lemma consumer_own_panel (s : Side) (result : StreamResult) :
  logged (other s) (fst (consumer s result)) = [].
Proof.
  destruct s; unfold consumer.
  - rewrite testWithoutWrapping_cases. cbv zeta.
    destruct (streamFailure result), (text result), (toolCalls result), (toolResults result);
      cbn [fst other logged Side_eqb app];
      rewrite ?logged_app, (logged_foreign_loopActions RightSide LeftSide) by reflexivity;
      reflexivity.
  - rewrite testWithWrapping_cases. cbv zeta.
    destruct (streamFailure result), (toolResults result);
      cbn [fst other logged Side_eqb app];
      rewrite ?logged_app, (logged_foreign_loopActions LeftSide RightSide) by reflexivity;
      reflexivity.
Qed.

Lemma reportError_eq (s : Side) (e : Error) :
  reportError s e
  = (map (Log s) (report e),
     if handlerCompletes e then inr tt else inl (handlerTypeError e)).
Proof.
  destruct e as [message [[c|]|]|]; try reflexivity.
  unfold reportError, report, handlerCompletes. destruct (truthy c); reflexivity.
Qed.

Lemma logged_map_Log (s : Side) (msgs : list string) :
  logged s (map (Log s) msgs) = msgs.
Proof.
  induction msgs as [|m rest IH]; simpl; [reflexivity|].
  now rewrite Side_eqb_refl, IH.
Qed.

Lemma logged_other_map_Log (s : Side) (msgs : list string) :
  logged (other s) (map (Log s) msgs) = [].
Proof.
  induction msgs as [|m rest IH]; simpl; [reflexivity|].
  now rewrite Side_eqb_other, IH.
Qed.

(** With its [catch], a consumer fulfils its promise exactly when it
    raises nothing or its handler runs to its end; otherwise the promise
    is rejected with the TypeError raised inside the handler. *)
Lemma guarded_outcome (s : Side) (result : StreamResult) :
  snd (guarded s result)
  = match snd (consumer s result) with
    | inl e => if handlerCompletes e then inr tt else inl (handlerTypeError e)
    | inr _ => inr tt
    end.
Proof.
  unfold guarded, catch.
  destruct (consumer s result) as [done [e|[]]]; cbn [snd].
  - rewrite reportError_eq. reflexivity.
  - reflexivity.
Qed.

Lemma guarded_fulfils (s : Side) (result : StreamResult) :
  completes s result = true -> snd (guarded s result) = inr tt.
Proof.
  unfold completes. rewrite guarded_outcome.
  destruct (snd (consumer s result)) as [e|u]; [|reflexivity].
  intros H. now rewrite H.
Qed.

Lemma guarded_settlement (s : Side) (result : StreamResult) :
  fulfilled (settlement (snd (guarded s result))) = completes s result.
Proof.
  unfold completes. rewrite guarded_outcome.
  destruct (snd (consumer s result)) as [e|u]; [|reflexivity].
  destruct (handlerCompletes e); reflexivity.
Qed.

(** What a consumer with its [catch] appends to its panel: its own
    lines, then the error report if it failed. *)
Lemma guarded_logged (s : Side) (result : StreamResult) :
  logged s (fst (guarded s result))
  = (logged s (fst (consumer s result))
     ++ match snd (consumer s result) with
        | inl e => report e
        | inr _ => []
        end)%list.
Proof.
  unfold guarded, catch.
  destruct (consumer s result) as [done [e|u]]; cbn [fst snd].
  - rewrite reportError_eq. cbn [fst snd].
    now rewrite logged_app, logged_map_Log.
  - now rewrite app_nil_r.
Qed.

Lemma guarded_own_panel (s : Side) (result : StreamResult) :
  logged (other s) (fst (guarded s result)) = [].
Proof.
  unfold guarded, catch.
  pose proof (consumer_own_panel s result) as Hown.
  destruct (consumer s result) as [done [e|u]]; cbn [fst snd] in *.
  - rewrite reportError_eq. cbn [fst snd].
    rewrite logged_app, Hown. apply logged_other_map_Log.
  - exact Hown.
Qed.

(** ** The scheduler *)

Lemma interleave_nil_l {A : Type} (schedule : list Side) (r : list A) :
  interleave schedule [] r = r.
Proof.
  revert r. induction schedule as [|s rest IH]; intros r; simpl; [reflexivity|].
  destruct s; [reflexivity|]. destruct r as [|y r']; [reflexivity|]. now rewrite IH.
Qed.

Lemma interleave_nil_r {A : Type} (schedule : list Side) (l : list A) :
  interleave schedule l [] = l.
Proof.
  revert l. induction schedule as [|s rest IH]; intros l; simpl.
  - apply app_nil_r.
  - destruct s; [|reflexivity]. destruct l as [|x l']; [reflexivity|]. now rewrite IH.
Qed.

Lemma Merge_nil_l {A : Type} (r : list A) : Merge [] r r.
Proof. induction r; constructor; assumption. Qed.

Lemma Merge_nil_r {A : Type} (l : list A) : Merge l [] l.
Proof. induction l; constructor; assumption. Qed.

Lemma Merge_app {A : Type} (l r : list A) : Merge l r (l ++ r).
Proof. induction l; simpl; [apply Merge_nil_l | constructor; assumption]. Qed.

(** Every schedule gives a merge of the two sequences ... *)
Lemma interleave_Merge {A : Type} (schedule : list Side) (l r : list A) :
  Merge l r (interleave schedule l r).
Proof.
  revert l r. induction schedule as [|s rest IH]; intros l r; simpl.
  - apply Merge_app.
  - destruct s.
    + destruct l; [apply Merge_nil_l | constructor; apply IH].
    + destruct r; [apply Merge_nil_r | constructor; apply IH].
Qed.

(** ... and every merge is given by some schedule. *)
Lemma Merge_interleave {A : Type} (l r m : list A) :
  Merge l r m -> exists schedule, interleave schedule l r = m.
Proof.
  induction 1 as [|x l r m _ [schedule IH]|y l r m _ [schedule IH]].
  - exists []. reflexivity.
  - exists (LeftSide :: schedule). simpl. now rewrite IH.
  - exists (RightSide :: schedule). simpl. now rewrite IH.
Qed.

Lemma appended_app (s : Side) (a b : list Event) :
  appended s (a ++ b) = (appended s a ++ appended s b)%list.
Proof.
  induction a as [|ev a IH]; simpl; [reflexivity|].
  destruct ev as [[panel msg|what]|task outcome]; try exact IH.
  destruct (Side_eqb panel s); simpl; now rewrite IH.
Qed.

Lemma appended_events (s task : Side) (t : Task unit) :
  appended s (events task t) = logged s (fst t).
Proof.
  unfold events. rewrite appended_app. simpl. rewrite app_nil_r.
  induction (fst t) as [|a rest IH]; simpl; [reflexivity|].
  destruct a as [panel msg|what]; [|exact IH].
  destruct (Side_eqb panel s); now rewrite IH.
Qed.

Lemma appended_tail_silent (s : Side) (ev : Event) (evs : list Event) :
  appended s (ev :: evs) = [] -> appended s evs = [].
Proof.
  simpl. destruct ev as [[panel msg|what]|task outcome]; try (intros H; exact H).
  destruct (Side_eqb panel s); [discriminate | intros H; exact H].
Qed.

(** The appends to a panel that only the left sequence touches do not
    depend on the schedule; likewise on the right. *)
Lemma appended_interleave_left (s : Side) (schedule : list Side) (l r : list Event) :
  appended s r = [] -> appended s (interleave schedule l r) = appended s l.
Proof.
  revert l r. induction schedule as [|side rest IH]; intros l r Hr; simpl.
  - now rewrite appended_app, Hr, app_nil_r.
  - destruct side.
    + destruct l as [|x l']; [exact Hr|].
      change (x :: interleave rest l' r) with ([x] ++ interleave rest l' r)%list.
      change (x :: l') with ([x] ++ l')%list.
      now rewrite !appended_app, IH.
    + destruct r as [|y r']; [reflexivity|].
      change (y :: interleave rest l r') with ([y] ++ interleave rest l r')%list.
      rewrite appended_app, IH by (eapply appended_tail_silent; exact Hr).
      assert (Hy : appended s [y] = []).
      { simpl in Hr |- *. destruct y as [[panel msg|what]|task outcome]; try reflexivity.
        destruct (Side_eqb panel s); [discriminate | reflexivity]. }
      now rewrite Hy.
Qed.

Lemma appended_interleave_right (s : Side) (schedule : list Side) (l r : list Event) :
  appended s l = [] -> appended s (interleave schedule l r) = appended s r.
Proof.
  revert l r. induction schedule as [|side rest IH]; intros l r Hl; simpl.
  - now rewrite appended_app, Hl.
  - destruct side.
    + destruct l as [|x l']; [reflexivity|].
      change (x :: interleave rest l' r) with ([x] ++ interleave rest l' r)%list.
      rewrite appended_app, IH by (eapply appended_tail_silent; exact Hl).
      assert (Hx : appended s [x] = []).
      { simpl in Hl |- *. destruct x as [[panel msg|what]|task outcome]; try reflexivity.
        destruct (Side_eqb panel s); [discriminate | reflexivity]. }
      now rewrite Hx.
    + destruct r as [|y r']; [exact Hl|].
      change (y :: interleave rest l r') with ([y] ++ interleave rest l r')%list.
      change (y :: r') with ([y] ++ r')%list.
      now rewrite !appended_app, IH.
Qed.

(** ** The join *)

Lemma joinRun_acts (n : nat) (j : Joined) (acts : list Action) (rest : list Event) :
  joinRun n j (map Act acts ++ rest) = (map Act acts ++ joinRun n j rest)%list.
Proof.
  induction acts as [|a acts IH]; simpl; [reflexivity|].
  destruct j; simpl; now rewrite IH.
Qed.

Lemma promiseAll_acts (n : nat) (j : Joined) (acts : list Action) (rest : list Event) :
  fold_left (joinStep n) (map Act acts ++ rest) j = fold_left (joinStep n) rest j.
Proof.
  induction acts as [|a acts IH]; simpl; [reflexivity|].
  destruct j; simpl; exact IH.
Qed.

Lemma promiseAll_both_fulfilled (schedule : list Side) (a1 a2 : list Action) (t1 t2 : Side) :
  promiseAll 2
    (interleave schedule (map Act a1 ++ [Settle t1 None]) (map Act a2 ++ [Settle t2 None]))
  = AllFulfilled.
Proof.
  unfold promiseAll.
  assert (Hlast : forall acts task,
            fold_left (joinStep 2) (map Act acts ++ [Settle task None]) (Pending 1)
            = AllFulfilled).
  { intros acts task. now rewrite promiseAll_acts. }
  revert a1 a2. induction schedule as [|side rest IH]; intros a1 a2.
  - simpl interleave. rewrite <- !app_assoc, promiseAll_acts. simpl. apply Hlast.
  - destruct side.
    + destruct a1 as [|x a1']; simpl.
      * rewrite interleave_nil_l. apply Hlast.
      * apply IH.
    + destruct a2 as [|y a2']; simpl.
      * rewrite interleave_nil_r. apply Hlast.
      * apply IH.
Qed.

(** A promise that rejects next to one that fulfils: under every
    schedule the join is rejected with that rejection. *)
Lemma promiseAll_one_rejected (schedule : list Side) (a1 a2 : list Action)
    (t1 t2 : Side) (e : Error) :
  promiseAll 2
    (interleave schedule (map Act a1 ++ [Settle t1 (Some e)])
                         (map Act a2 ++ [Settle t2 None]))
  = Rejected e.
Proof.
  unfold promiseAll.
  assert (Hrej : forall evs, fold_left (joinStep 2) evs (Rejected e) = Rejected e).
  { induction evs as [|ev evs IH]; [reflexivity | exact IH]. }
  assert (Hlast : forall acts task k,
            fold_left (joinStep 2) (map Act acts ++ [Settle task (Some e)]) (Pending k)
            = Rejected e).
  { intros acts task k. now rewrite promiseAll_acts. }
  revert a1 a2. induction schedule as [|side rest IH]; intros a1 a2.
  - simpl interleave. rewrite <- !app_assoc, promiseAll_acts. simpl. apply Hrej.
  - destruct side.
    + destruct a1 as [|x a1']; simpl.
      * apply Hrej.
      * apply IH.
    + destruct a2 as [|y a2']; simpl.
      * rewrite interleave_nil_r. apply Hlast.
      * apply IH.
Qed.

(** Once the join is rejected, no callback is ever run. *)
Lemma joinRun_rejected (n : nat) (e : Error) (evs : list Event) :
  joinRun n (Rejected e) evs = evs.
Proof.
  induction evs as [|ev evs IH]; [reflexivity|].
  cbn [joinRun]. destruct ev as [a|task outcome]; cbn [joinStep app]; now rewrite IH.
Qed.

(** The second settlement: the callback follows a fulfilment only. *)
Lemma joinRun_second (acts : list Action) (task : Side) (outcome : option Error) :
  joinRun 2 (Pending 1) (map Act acts ++ [Settle task outcome])
  = (map Act acts ++ [Settle task outcome]
     ++ if fulfilled outcome then onJoined else [])%list.
Proof. rewrite joinRun_acts. destruct outcome; reflexivity. Qed.

(** Two promises, however they settle: under every schedule the callback
    runs after the last event of both if both fulfil, and never
    otherwise. *)
Lemma joinRun_settled (schedule : list Side) (a1 a2 : list Action) (t1 t2 : Side)
    (o1 o2 : option Error) :
  joinRun 2 (Pending 0)
    (interleave schedule (map Act a1 ++ [Settle t1 o1]) (map Act a2 ++ [Settle t2 o2]))
  = (interleave schedule (map Act a1 ++ [Settle t1 o1]) (map Act a2 ++ [Settle t2 o2])
     ++ if fulfilled o1 && fulfilled o2 then onJoined else [])%list.
Proof.
  assert (Hfirst : forall t o acts t' o',
            joinRun 2 (Pending 0) (Settle t o :: map Act acts ++ [Settle t' o'])
            = (Settle t o :: map Act acts ++ [Settle t' o']
               ++ if fulfilled o && fulfilled o' then onJoined else [])%list).
  { intros t o acts t' o'. destruct o as [e|]; cbn [joinRun joinStep Nat.eqb app].
    - rewrite joinRun_rejected. cbn [fulfilled andb].
      rewrite <- (app_nil_r (map Act acts ++ [Settle t' o'])) at 1.
      rewrite <- app_assoc. reflexivity.
    - rewrite joinRun_second. reflexivity. }
  revert a1 a2. induction schedule as [|side rest IH]; intros a1 a2.
  - cbn [interleave]. rewrite <- !app_assoc, joinRun_acts. f_equal.
    apply (Hfirst t1 o1 a2 t2 o2).
  - destruct side.
    + destruct a1 as [|x a1']; cbn [map app interleave].
      * rewrite interleave_nil_l, <- app_assoc. apply (Hfirst t1 o1 a2 t2 o2).
      * cbn [joinRun joinStep app]. f_equal. apply IH.
    + destruct a2 as [|y a2']; cbn [map app interleave].
      * rewrite interleave_nil_r, andb_comm, <- app_assoc. apply (Hfirst t2 o2 a1 t1 o1).
      * cbn [joinRun joinStep app]. f_equal. apply IH.
Qed.

Lemma events_guarded (s : Side) (result : StreamResult) :
  completes s result = true ->
  events s (guarded s result) = (map Act (fst (guarded s result)) ++ [Settle s None])%list.
Proof. intros H. unfold events. now rewrite guarded_fulfils. Qed.

(** The script's join: the two guarded consumers in schedule order, then
    the callback if both promises are fulfilled. *)
Lemma program_eq (schedule : list Side) (left right : StreamResult) :
  program schedule left right
  = (interleave schedule (events LeftSide (guarded LeftSide left))
                         (events RightSide (guarded RightSide right))
     ++ if completes LeftSide left && completes RightSide right then onJoined else [])%list.
Proof.
  unfold program, joined, events.
  rewrite joinRun_settled, !guarded_settlement. reflexivity.
Qed.

(** ** Running events on the screen *)

Lemma exec_app (a b : list Event) (ui : UI) :
  exec (a ++ b) ui = exec b (exec a ui).
Proof. unfold exec. apply fold_left_app. Qed.

Lemma exec_lines (s : Side) (evs : list Event) (ui : UI) :
  getLines s (exec evs ui) = (getLines s ui ++ appended s evs)%list.
Proof.
  revert ui. induction evs as [|ev evs IH]; intros ui; simpl.
  - now rewrite app_nil_r.
  - unfold exec in *. simpl. rewrite IH.
    destruct ev as [[panel msg|what]|task outcome]; simpl; try reflexivity.
    destruct (logTo_effect panel msg ui) as [Hown [Hother _]].
    destruct panel, s; simpl in *;
      rewrite ?Hown, ?Hother, <- ?app_assoc; reflexivity.
Qed.

Lemma logTo_rendered (s : Side) (msg : string) (ui : UI) :
  rendered ui -> rendered (logTo s msg ui).
Proof.
  intros H side.
  destruct (logTo_effect s msg ui) as [Hown [Hother [Hc [Hco _]]]].
  destruct s, side; simpl in *;
    rewrite ?Hown, ?Hother, ?Hc, ?Hco; try reflexivity.
  - apply (H RightSide).
  - apply (H LeftSide).
Qed.

Lemma exec_rendered (evs : list Event) (ui : UI) :
  rendered ui -> rendered (exec evs ui).
Proof.
  revert ui. induction evs as [|ev evs IH]; intros ui H; [exact H|].
  unfold exec in *. simpl. apply IH.
  destruct ev as [[panel msg|what]|task outcome]; simpl; try exact H.
  apply logTo_rendered, H.
Qed.

Lemma initialUI_rendered (modelName : string) (rows : Z) :
  rendered (initialUI modelName rows).
Proof. intros []; reflexivity. Qed.

(** The lines of a panel when the script has run: what its consumer
    appended, error report included, then the quit notice if both
    promises were fulfilled. *)
Lemma final_lines (s : Side) (schedule : list Side) (left right : StreamResult)
    (modelName : string) (rows : Z) :
  getLines s (exec (program schedule left right) (initialUI modelName rows))
  = (logged s (fst (guarded s (pick s left right)))
     ++ noticeIf (completes LeftSide left && completes RightSide right))%list.
Proof.
  rewrite exec_lines, program_eq, appended_app.
  assert (Hn : forall b : bool,
            appended s (if b then onJoined else []) = noticeIf b).
  { intros [|]; destruct s; reflexivity. }
  rewrite Hn.
  destruct s; simpl getLines; simpl pick; rewrite app_nil_l.
  - rewrite appended_interleave_left, appended_events; [reflexivity|].
    rewrite appended_events. apply (guarded_own_panel RightSide).
  - rewrite appended_interleave_right, appended_events; [reflexivity|].
    rewrite appended_events. apply (guarded_own_panel LeftSide).
Qed.

(** When both handlers run to their end, or are not needed, the join is
    fulfilled under every schedule and the callback runs after the last
    event of both tasks. *)
Lemma join_fulfilled_when_handlers_complete
    (schedule : list Side) (left right : StreamResult) :
  completes LeftSide left = true ->
  completes RightSide right = true ->
  promiseAll 2 (interleave schedule (events LeftSide (guarded LeftSide left))
                                    (events RightSide (guarded RightSide right)))
  = AllFulfilled
  /\ program schedule left right
     = (interleave schedule (events LeftSide (guarded LeftSide left))
                            (events RightSide (guarded RightSide right))
        ++ [Act (Log LeftSide quitNotice); Act (Log RightSide quitNotice)])%list.
Proof.
  intros Hl Hr. split.
  - rewrite !events_guarded by assumption. apply promiseAll_both_fulfilled.
  - rewrite program_eq, Hl, Hr. reflexivity.
Qed.

(** C3 at a stream call that rejects with an error whose cause refers to
    itself, next to a call that succeeds.  The left handler appends the
    error line, then [JSON.stringify] throws inside it: the left promise
    is rejected with that TypeError and, under every schedule,
    [Promise.all] is rejected with it and the [then] callback never
    runs.  The left panel ends with the error line and the right panel
    with its Done! line: neither gets the quit notice. *)
Theorem cyclic_cause_rejects_the_join (schedule : list Side) :
  snd (consumer LeftSide cyclicFailingResult) = inl cyclicCauseError
  /\ snd (guarded LeftSide cyclicFailingResult) = inl (handlerTypeError cyclicCauseError)
  /\ snd (guarded RightSide sampleResult) = inr tt
  /\ promiseAll 2 (interleave schedule
                     (events LeftSide (guarded LeftSide cyclicFailingResult))
                     (events RightSide (guarded RightSide sampleResult)))
     = Rejected (handlerTypeError cyclicCauseError)
  /\ leftLines (exec (program schedule cyclicFailingResult sampleResult)
                     (initialUI "GPT-4o Mini" 24))
     = (startLine LeftSide :: shown sampleParts
        ++ ["{red-fg}Error: request failed{/red-fg}"])%list
  /\ rightLines (exec (program schedule cyclicFailingResult sampleResult)
                      (initialUI "GPT-4o Mini" 24))
     = (startLine RightSide :: shown sampleParts
        ++ [toolResultsHeader; "[]"; ""; doneLine])%list.
Proof.
  split; [reflexivity|]. split; [reflexivity|]. split; [reflexivity|].
  split; [|split].
  - assert (Hl : events LeftSide (guarded LeftSide cyclicFailingResult)
                 = (map Act (fst (guarded LeftSide cyclicFailingResult))
                    ++ [Settle LeftSide (Some (handlerTypeError cyclicCauseError))])%list)
      by reflexivity.
    assert (Hr : events RightSide (guarded RightSide sampleResult)
                 = (map Act (fst (guarded RightSide sampleResult))
                    ++ [Settle RightSide None])%list)
      by reflexivity.
    rewrite Hl, Hr. apply promiseAll_one_rejected.
  - rewrite (final_lines LeftSide). reflexivity.
  - rewrite (final_lines RightSide). reflexivity.
Qed.

(** Without the two [catch] handlers the join would short-circuit on
    every failure: a failing consumer rejects [Promise.all] and the
    callback never runs. *)
Remark bare_join_short_circuits :
  promiseAll 2 (interleave [] (events LeftSide (consumer LeftSide failingResult))
                              (events RightSide (consumer RightSide sampleResult)))
  = Rejected sampleError
  /\ memString quitNotice
       (appended LeftSide (joined consumer [] failingResult sampleResult)) = false
  /\ memString quitNotice
       (appended LeftSide (joined guarded [] failingResult sampleResult)) = true.
Proof. vm_compute. repeat split. Qed.

(** ** Failure isolation *)

(** A consumer that raises no error has appended its Done! line last. *)
Lemma completes_done (s : Side) (result : StreamResult) :
  snd (consumer s result) = inr tt ->
  exists before, logged s (fst (consumer s result)) = (before ++ [doneLine])%list.
Proof.
  destruct s; unfold consumer.
  - rewrite testWithoutWrapping_cases. cbv zeta.
    destruct (streamFailure result), (text result) as [|t],
             (toolCalls result) as [|c], (toolResults result) as [|r];
      cbn [fst snd]; intros H; try discriminate H.
    cbn [logged Side_eqb app]. rewrite logged_app, logged_loopActions.
    eexists (_ :: shown (fullStream result) ++ [_; _; _; _; _; _; _; _; _])%list.
    cbn [logged Side_eqb app]. rewrite <- app_assoc. reflexivity.
  - rewrite testWithWrapping_cases. cbv zeta.
    destruct (streamFailure result), (toolResults result) as [|r];
      cbn [fst snd]; intros H; try discriminate H.
    cbn [logged Side_eqb app]. rewrite logged_app, logged_loopActions.
    eexists (_ :: shown (fullStream result) ++ [_; _; _])%list.
    cbn [logged Side_eqb app]. rewrite <- app_assoc. reflexivity.
Qed.

(** C2, as amended (failure isolation).  Let the consumer of panel [s]
    raise an error object, during the stream or a follow-up retrieval,
    whose cause is absent or can be serialised.  Then under every
    schedule, and whatever the other consumer does, panel [s] holds what
    its consumer had appended, then exactly one error line, then one
    cause line exactly when the cause is truthy (an object or array, a
    non-empty string, a non-zero number, [true]), and after that only the
    quit notice of the join.  The other panel holds what its own consumer
    and handler append and the quit notice, none of which depends on the
    failing call; and if the other consumer raises no error, its panel
    ends with its Done! line followed by the quit notice.  Each box shows
    its lines. *)
Theorem consumer_failure_is_isolated
    (s : Side) (schedule : list Side) (left right : StreamResult)
    (message : string) (cause : option Cause) (modelName : string) (rows : Z) :
  snd (consumer s (pick s left right)) = inl (ErrorObject message cause) ->
  handlerCompletes (ErrorObject message cause) = true ->
  getLines s (exec (program schedule left right) (initialUI modelName rows))
  = (logged s (fst (consumer s (pick s left right)))
     ++ [errorLine message]
     ++ match cause with
        | Some (Plain c) => if truthy c then [causeLine c] else []
        | Some Unserialisable => []
        | None => []
        end
     ++ noticeIf (completes (other s) (pick (other s) left right)))%list
  /\ getLines (other s) (exec (program schedule left right) (initialUI modelName rows))
     = (logged (other s) (fst (guarded (other s) (pick (other s) left right)))
        ++ noticeIf (completes (other s) (pick (other s) left right)))%list
  /\ (snd (consumer (other s) (pick (other s) left right)) = inr tt ->
      exists before,
        getLines (other s) (exec (program schedule left right) (initialUI modelName rows))
        = (before ++ [doneLine; quitNotice])%list)
  /\ (forall side,
        content (getBox side (exec (program schedule left right) (initialUI modelName rows)))
        = join nl (getLines side
                     (exec (program schedule left right) (initialUI modelName rows)))).
Proof.
  intros Hfail Hhandler.
  assert (Hs : completes s (pick s left right) = true).
  { unfold completes. rewrite Hfail. exact Hhandler. }
  assert (Hjoin : completes LeftSide left && completes RightSide right
                  = completes (other s) (pick (other s) left right)).
  { destruct s; cbn [pick other] in *; rewrite Hs;
      [apply andb_true_l | apply andb_true_r]. }
  assert (Hown :
    getLines s (exec (program schedule left right) (initialUI modelName rows))
    = (logged s (fst (consumer s (pick s left right)))
       ++ report (ErrorObject message cause)
       ++ noticeIf (completes (other s) (pick (other s) left right)))%list).
  { rewrite final_lines, guarded_logged, Hfail, Hjoin, <- app_assoc. reflexivity. }
  assert (Hother :
    getLines (other s) (exec (program schedule left right) (initialUI modelName rows))
    = (logged (other s) (fst (guarded (other s) (pick (other s) left right)))
       ++ noticeIf (completes (other s) (pick (other s) left right)))%list).
  { rewrite final_lines, Hjoin. reflexivity. }
  split; [|split; [|split]].
  - rewrite Hown. cbn [report app].
    destruct cause as [[c|]|]; reflexivity.
  - exact Hother.
  - intros Hok. destruct (completes_done (other s) _ Hok) as [before Hbefore].
    exists before. rewrite Hother, guarded_logged, Hok, app_nil_r, Hbefore.
    unfold completes. rewrite Hok. cbn [noticeIf]. rewrite <- app_assoc. reflexivity.
  - apply exec_rendered, initialUI_rendered.
Qed.

Lemma consumer_failure_is_isolated_witness :
  snd (consumer LeftSide failingResult)
  = inl (ErrorObject "request failed" (Some (Plain (JObj [("code", JNum 503)]))))
  /\ handlerCompletes
       (ErrorObject "request failed" (Some (Plain (JObj [("code", JNum 503)])))) = true
  /\ (getLines LeftSide sampleFinal
      = (logged LeftSide (fst (consumer LeftSide failingResult))
         ++ [errorLine "request failed"]
         ++ [causeLine (JObj [("code", JNum 503)])]
         ++ noticeIf (completes RightSide sampleResult))%list
      /\ getLines RightSide sampleFinal
         = (logged RightSide (fst (guarded RightSide sampleResult))
            ++ noticeIf (completes RightSide sampleResult))%list
      /\ (snd (consumer RightSide sampleResult) = inr tt ->
          exists before,
            getLines RightSide sampleFinal = (before ++ [doneLine; quitNotice])%list)
      /\ (forall side,
            content (getBox side sampleFinal) = join nl (getLines side sampleFinal))).
Proof.
  split; [reflexivity|]. split; [reflexivity|].
  exact (consumer_failure_is_isolated LeftSide sampleSchedule failingResult sampleResult
           "request failed" (Some (Plain (JObj [("code", JNum 503)])))
           "GPT-4o Mini" 24 eq_refl eq_refl).
Defined.

(** C2, as stated, fails: an error whose cause is the string [timeout]
    carries no cause object, yet its report has a cause line. *)
Lemma string_cause_gets_cause_line :
  carriesCauseObject stringCauseError = false
  /\ logged LeftSide (fst (reportError LeftSide stringCauseError))
     = [ "{red-fg}Error: request failed{/red-fg}";
         "Cause: " ++ dquote ++ "timeout" ++ dquote ]
  /\ ~ (forall s e,
          carriesCauseObject e = false ->
          List.length (logged s (fst (reportError s e))) = 1%nat).
Proof.
  split; [reflexivity|]. split; [vm_compute; reflexivity|].
  intros H. specialize (H LeftSide stringCauseError eq_refl).
  vm_compute in H. discriminate H.
Qed.

(** ** Follow-up retrievals *)

(** The unwrapped consumer: all three retrievals, a section for each. *)
Lemma testWithoutWrapping_summaries (result : StreamResult) (t : string) (c r : JValue) :
  streamFailure result = None ->
  text result = inr t -> toolCalls result = inr c -> toolResults result = inr r ->
  retrievals (fst (testWithoutWrapping result)) = [FinalText; ToolCalls; ToolResults]
  /\ logged LeftSide (fst (testWithoutWrapping result))
     = (("{yellow-fg}Starting test (ai.streamText)...{/yellow-fg}" ++ nl)%string
        :: shown (fullStream result)
        ++ [finalTextHeader; if String.eqb t "" then "(empty)" else t; "";
            toolCallsHeader; formatPart c; "";
            toolResultsHeader; formatPart r; "";
            doneLine])%list.
Proof.
  intros Hs Ht Hc Hr. rewrite testWithoutWrapping_cases, Hs, Ht, Hc, Hr.
  cbv zeta. cbn [fst]. split.
  - cbn [retrievals app]. now rewrite retrievals_app, retrievals_loopActions.
  - cbn [logged Side_eqb app]. now rewrite logged_app, logged_loopActions.
Qed.

(** The wrapped consumer: the tool results only. *)
Lemma testWithWrapping_summaries (result : StreamResult) (r : JValue) :
  streamFailure result = None ->
  toolResults result = inr r ->
  retrievals (fst (testWithWrapping result)) = [ToolResults]
  /\ logged RightSide (fst (testWithWrapping result))
     = (("{yellow-fg}Starting test (wrappedStreamText)...{/yellow-fg}" ++ nl)%string
        :: shown (fullStream result)
        ++ [toolResultsHeader; formatPart r; ""; doneLine])%list.
Proof.
  intros Hs Hr. rewrite testWithWrapping_cases, Hs, Hr.
  cbv zeta. cbn [fst]. split.
  - cbn [retrievals app]. now rewrite retrievals_app, retrievals_loopActions.
  - cbn [logged Side_eqb app]. now rewrite logged_app, logged_loopActions.
Qed.

(** C1 at a stream call in which nothing fails: the unwrapped consumer
    performs the three retrievals and appends the three sections, while
    the wrapped consumer retrieves the tool results only and appends
    neither a final-text nor a tool-calls section. *)
Theorem wrapped_consumer_skips_text_and_toolCalls :
  retrievals (fst (testWithoutWrapping sampleResult)) = [FinalText; ToolCalls; ToolResults]
  /\ retrievals (fst (testWithWrapping sampleResult)) = [ToolResults]
  /\ snd (testWithWrapping sampleResult) = inr tt
  /\ memString finalTextHeader (logged LeftSide (fst (testWithoutWrapping sampleResult))) = true
  /\ memString toolCallsHeader (logged LeftSide (fst (testWithoutWrapping sampleResult))) = true
  /\ memString toolResultsHeader (logged LeftSide (fst (testWithoutWrapping sampleResult))) = true
  /\ memString finalTextHeader (logged RightSide (fst (testWithWrapping sampleResult))) = false
  /\ memString toolCallsHeader (logged RightSide (fst (testWithWrapping sampleResult))) = false
  /\ memString toolResultsHeader (logged RightSide (fst (testWithWrapping sampleResult))) = true.
Proof. vm_compute. repeat split. Qed.

(** ** The greeting tool *)

Lemma partsOf_toolStream (toolResultPart : JValue -> JValue) (g : Gen) :
  partsOf (toolStream toolResultPart g) = map toolResultPart (yields g).
Proof.
  induction g as [msg rest IH|v rest IH|]; simpl; [exact IH | now rewrite IH | reflexivity].
Qed.

(** Whatever else happens, a consumer appends the lines of its stream in
    stream order. *)
Lemma consumer_shows_stream (s : Side) (result : StreamResult) :
  exists before after,
    logged s (fst (consumer s result))
    = (before ++ shown (fullStream result) ++ after)%list.
Proof.
  destruct s; unfold consumer.
  - rewrite testWithoutWrapping_cases. cbv zeta.
    destruct (streamFailure result), (text result), (toolCalls result), (toolResults result);
      cbn [fst logged Side_eqb app]; rewrite ?logged_app, logged_loopActions;
      first [ eexists [_], _; reflexivity
            | eexists [_], []; rewrite app_nil_r; reflexivity ].
  - rewrite testWithWrapping_cases. cbv zeta.
    destruct (streamFailure result), (toolResults result);
      cbn [fst logged Side_eqb app]; rewrite ?logged_app, logged_loopActions;
      first [ eexists [_], _; reflexivity
            | eexists [_], []; rewrite app_nil_r; reflexivity ].
Qed.

(** C9 (the greeting tool).  For every name the generator yields exactly
    four status objects, in the order starting, processing, generating,
    done, pairwise different, the last one carrying the greeting.  Run by
    the generation runtime, the four values become four stream parts in
    that order, and a consumer whose stream contains this run appends
    four part blocks for them, one per value, in that order. *)
Theorem greeting_tool_surfaces_four_events
    (toolResultPart : JValue -> JValue) (name : string) :
  yields (execute name)
  = [ JObj [("status", JStr "starting"); ("message", JStr "Preparing greeting...")];
      JObj [("status", JStr "processing"); ("message", JStr ("Looking up " ++ name ++ "..."))];
      JObj [("status", JStr "generating"); ("message", JStr "Generating greeting...")];
      JObj [("status", JStr "done"); ("greeting", JStr ("Hello, " ++ name ++ "!"))] ]
  /\ map statusOf (yields (execute name))
     = [Some "starting"; Some "processing"; Some "generating"; Some "done"]
  /\ NoDup (yields (execute name))
  /\ partsOf (toolStream toolResultPart (execute name))
     = map toolResultPart (yields (execute name))
  /\ forall (s : Side) (pre post : list StreamItem) (failure : option Error)
            (t : Error + string) (c r : Error + JValue),
     exists before after,
       logged s (fst (consumer s
                        {| fullStream := pre ++ toolStream toolResultPart (execute name) ++ post;
                           streamFailure := failure;
                           text := t; toolCalls := c; toolResults := r |}))
       = (before
          ++ ["[execute] Starting generator for: " ++ name]%string
          ++ partBlock (toolResultPart
               (JObj [("status", JStr "starting"); ("message", JStr "Preparing greeting...")]))
          ++ ["[execute] Yielded starting status"]
          ++ partBlock (toolResultPart
               (JObj [("status", JStr "processing");
                      ("message", JStr ("Looking up " ++ name ++ "..."))]))
          ++ ["[execute] Yielded processing status"]
          ++ partBlock (toolResultPart
               (JObj [("status", JStr "generating"); ("message", JStr "Generating greeting...")]))
          ++ ["[execute] Yielded generating status"; "[execute] Returning final result"]
          ++ partBlock (toolResultPart
               (JObj [("status", JStr "done"); ("greeting", JStr ("Hello, " ++ name ++ "!"))]))
          ++ after)%list.
Proof.
  split; [reflexivity|]. split; [reflexivity|]. split; [|split].
  - simpl. repeat constructor; simpl; intuition discriminate.
  - apply partsOf_toolStream.
  - intros s pre post failure t c r.
    destruct (consumer_shows_stream s
                {| fullStream := pre ++ toolStream toolResultPart (execute name) ++ post;
                   streamFailure := failure;
                   text := t; toolCalls := c; toolResults := r |})
      as [before [after H]].
    exists (before ++ shown pre)%list, (shown post ++ after)%list.
    rewrite H. cbn [fullStream]. rewrite !shown_app. simpl.
    rewrite <- !app_assoc. reflexivity.
Qed.

(** ** Startup *)

Lemma logTo_labels (s : Side) (msg : string) (ui : UI) :
  title (logTo s msg ui) = title ui /\ statusBar (logTo s msg ui) = statusBar ui.
Proof.
  destruct (syncing ui) eqn:Hs.
  - destruct s; unfold logTo, logLeft, logRight, setScrollPerc;
      rewrite (syncScroll_held _ _ (setBox _ _ _)) by exact Hs;
      rewrite syncScroll_held by exact Hs; split; reflexivity.
  - destruct s; unfold logTo, logLeft, logRight, setScrollPerc;
      rewrite (syncScroll_free _ _ (setBox _ _ _)) by exact Hs;
      rewrite syncScroll_free by reflexivity; split; reflexivity.
Qed.

Lemma exec_labels (evs : list Event) (ui : UI) :
  title (exec evs ui) = title ui /\ statusBar (exec evs ui) = statusBar ui.
Proof.
  revert ui. induction evs as [|ev evs IH]; intros ui; [split; reflexivity|].
  unfold exec in *. simpl.
  destruct (IH (perform ui ev)) as [Ht Hb]. rewrite Ht, Hb.
  destruct ev as [[panel msg|what]|task outcome]; simpl; try (split; reflexivity).
  apply logTo_labels.
Qed.

(** C4, as amended (model selection).  If [ANTHROPIC_API_KEY] holds a
    non-empty value the Anthropic model is selected with that key and the
    screen shows its name, whatever [OPENAI_API_KEY] holds; otherwise, if
    [OPENAI_API_KEY] holds a non-empty value, the OpenAI model is
    selected; if neither holds a non-empty value the script ends with
    exit code 1 and exactly two lines on stderr, the first naming both
    variables, and no screen is created. *)
Theorem model_selection (env : Env) (rows : Z) (schedule : list Side)
    (left right : StreamResult) :
  (envTruthy (ANTHROPIC_API_KEY env) = true ->
   exists key ui,
     ANTHROPIC_API_KEY env = Some key
     /\ selectModel env
        = Selected {| provider := Anthropic; apiKey := key;
                      modelId := "claude-3-5-haiku-latest" |}
                   "Claude 3.5 Haiku"
     /\ main env rows schedule left right = Alive ui
     /\ title ui = "Braintrust Async Generator Repro - Claude 3.5 Haiku"
     /\ isPrefix " {bold}Model:{/bold} Claude 3.5 Haiku |" (statusBar ui) = true)
  /\ (envTruthy (ANTHROPIC_API_KEY env) = false ->
      envTruthy (OPENAI_API_KEY env) = true ->
      exists key ui,
        OPENAI_API_KEY env = Some key
        /\ selectModel env
           = Selected {| provider := OpenAI; apiKey := key; modelId := "gpt-4o-mini" |}
                      "GPT-4o Mini"
        /\ main env rows schedule left right = Alive ui
        /\ title ui = "Braintrust Async Generator Repro - GPT-4o Mini"
        /\ isPrefix " {bold}Model:{/bold} GPT-4o Mini |" (statusBar ui) = true)
  /\ (envTruthy (ANTHROPIC_API_KEY env) = false ->
      envTruthy (OPENAI_API_KEY env) = false ->
      main env rows schedule left right
      = Died [ "Error: Neither ANTHROPIC_API_KEY nor OPENAI_API_KEY is set.";
               "Please set one of them in your .env file." ] 1
      /\ contains "ANTHROPIC_API_KEY"
           "Error: Neither ANTHROPIC_API_KEY nor OPENAI_API_KEY is set." = true
      /\ contains "OPENAI_API_KEY"
           "Error: Neither ANTHROPIC_API_KEY nor OPENAI_API_KEY is set." = true).
Proof.
  split; [|split].
  - intros Ha. unfold main, selectModel. rewrite Ha.
    destruct (ANTHROPIC_API_KEY env) as [key|]; [|discriminate Ha].
    eexists key, _. split; [reflexivity|]. split; [reflexivity|].
    split; [reflexivity|].
    destruct (exec_labels (program schedule left right)
                (initialUI "Claude 3.5 Haiku" rows)) as [Ht Hb].
    rewrite Ht, Hb. split; reflexivity.
  - intros Ha Ho. unfold main, selectModel. rewrite Ha, Ho.
    destruct (OPENAI_API_KEY env) as [key|]; [|discriminate Ho].
    eexists key, _. split; [reflexivity|]. split; [reflexivity|].
    split; [reflexivity|].
    destruct (exec_labels (program schedule left right)
                (initialUI "GPT-4o Mini" rows)) as [Ht Hb].
    rewrite Ht, Hb. split; reflexivity.
  - intros Ha Ho. unfold main, selectModel. rewrite Ha, Ho.
    repeat split.
Qed.

Lemma model_selection_witness :
  envTruthy (ANTHROPIC_API_KEY bothKeysEnv) = true
  /\ envTruthy (ANTHROPIC_API_KEY openaiOnlyEnv) = false
  /\ envTruthy (OPENAI_API_KEY openaiOnlyEnv) = true
  /\ envTruthy (ANTHROPIC_API_KEY noKeysEnv) = false
  /\ envTruthy (OPENAI_API_KEY noKeysEnv) = false
  /\ (exists key ui,
        ANTHROPIC_API_KEY bothKeysEnv = Some key
        /\ selectModel bothKeysEnv
           = Selected {| provider := Anthropic; apiKey := key;
                         modelId := "claude-3-5-haiku-latest" |}
                      "Claude 3.5 Haiku"
        /\ main bothKeysEnv 24 sampleSchedule sampleResult sampleResult = Alive ui
        /\ title ui = "Braintrust Async Generator Repro - Claude 3.5 Haiku"
        /\ isPrefix " {bold}Model:{/bold} Claude 3.5 Haiku |" (statusBar ui) = true)
  /\ (exists key ui,
        OPENAI_API_KEY openaiOnlyEnv = Some key
        /\ selectModel openaiOnlyEnv
           = Selected {| provider := OpenAI; apiKey := key; modelId := "gpt-4o-mini" |}
                      "GPT-4o Mini"
        /\ main openaiOnlyEnv 24 sampleSchedule sampleResult sampleResult = Alive ui
        /\ title ui = "Braintrust Async Generator Repro - GPT-4o Mini"
        /\ isPrefix " {bold}Model:{/bold} GPT-4o Mini |" (statusBar ui) = true)
  /\ main noKeysEnv 24 sampleSchedule sampleResult sampleResult
     = Died [ "Error: Neither ANTHROPIC_API_KEY nor OPENAI_API_KEY is set.";
              "Please set one of them in your .env file." ] 1.
Proof.
  repeat (split; [reflexivity|]).
  split; [|split].
  - exact (proj1 (model_selection bothKeysEnv 24 sampleSchedule sampleResult sampleResult)
             eq_refl).
  - exact (proj1 (proj2 (model_selection openaiOnlyEnv 24 sampleSchedule
                           sampleResult sampleResult))
             eq_refl eq_refl).
  - exact (proj1 (proj2 (proj2 (model_selection noKeysEnv 24 sampleSchedule
                                  sampleResult sampleResult))
                    eq_refl eq_refl)).
Defined.

(** C4, as stated, fails: [ANTHROPIC_API_KEY] is set, to the empty
    string, and the OpenAI model is selected. *)
Lemma empty_anthropic_key_selects_openai :
  envSet (ANTHROPIC_API_KEY emptyAnthropicEnv) = true
  /\ selectModel emptyAnthropicEnv
     = Selected {| provider := OpenAI; apiKey := "sk-test"; modelId := "gpt-4o-mini" |}
                "GPT-4o Mini"
  /\ ~ (exists m, selectModel emptyAnthropicEnv = Selected m "Claude 3.5 Haiku").
Proof.
  split; [reflexivity|]. split; [reflexivity|].
  intros [m H]. discriminate H.
Qed.

(** * Further properties *)

(** ** formatPart *)

Lemma serialize_replaced (v : JValue) :
  forall stepback key,
    serialize true stepback key v = serialize false stepback key (replaced key v).
Proof.
  revert v. fix IH 1. intros v stepback key.
  destruct v as [ | b | n | s | items | fields | name message ]; try reflexivity.
  - cbn [serialize replaced]. f_equal. rewrite map_map.
    induction items as [|item rest IHrest]; cbn [map]; [reflexivity|].
    f_equal; [apply IH | exact IHrest].
  - cbn [serialize replaced]. f_equal. rewrite map_map.
    induction fields as [|[k fv] rest IHrest]; cbn [map fst snd]; [reflexivity|].
    f_equal; [|exact IHrest]. rewrite (IH fv). reflexivity.
  - cbn [serialize replaced replacer]. destruct (String.eqb key "error"); reflexivity.
Qed.

Lemma replaced_errorFree (v : JValue) :
  forall key, hasError v = false -> replaced key v = v.
Proof.
  revert v. fix IH 1. intros v key Hfree.
  destruct v as [ | b | n | s | items | fields | name message ]; try reflexivity.
  - cbn [replaced hasError] in *. f_equal.
    induction items as [|item rest IHrest]; cbn [map existsb] in *; [reflexivity|].
    apply orb_false_iff in Hfree. destruct Hfree as [Hitem Hrest].
    f_equal; [apply IH, Hitem | apply IHrest, Hrest].
  - cbn [replaced hasError] in *. f_equal.
    induction fields as [|[k fv] rest IHrest]; cbn [map existsb fst snd] in *; [reflexivity|].
    apply orb_false_iff in Hfree. destruct Hfree as [Hfield Hrest].
    f_equal; [f_equal; apply IH, Hfield | apply IHrest, Hrest].
  - discriminate Hfree.
Qed.

(** X1.  [formatPart] prints a value exactly as plain
    [JSON.stringify(v, null, 2)] prints the value in which every [Error]
    held by a property named [error] has been replaced by the object
    of its name and message; nothing else is changed, at any depth. *)
Theorem formatPart_is_stringify_of_replaced (part : JValue) :
  formatPart part = JSON_stringify (replaced "" part).
Proof. unfold formatPart, JSON_stringify. apply serialize_replaced. Qed.

(** X2.  On a value that contains no [Error] instance, [formatPart] and
    plain [JSON.stringify(v, null, 2)] give the same text. *)
Theorem formatPart_plain_without_errors (part : JValue) :
  hasError part = false -> formatPart part = JSON_stringify part.
Proof.
  intros Hfree. unfold formatPart, JSON_stringify.
  rewrite serialize_replaced, replaced_errorFree by exact Hfree. reflexivity.
Qed.

Lemma formatPart_plain_without_errors_witness :
  hasError (JObj [("type", JStr "tool-result"); ("output", JArr [JNum 1; JNull])]) = false
  /\ formatPart (JObj [("type", JStr "tool-result"); ("output", JArr [JNum 1; JNull])])
     = JSON_stringify (JObj [("type", JStr "tool-result"); ("output", JArr [JNum 1; JNull])]).
Proof.
  split; [reflexivity|].
  apply (formatPart_plain_without_errors
           (JObj [("type", JStr "tool-result"); ("output", JArr [JNum 1; JNull])])).
  reflexivity.
Defined.

(** ** The event loop *)

(** What a synchronisation never touches. *)
Lemma syncScroll_frame (source target : Side) (ui : UI) :
  focusedBox (syncScroll source target ui) = focusedBox ui
  /\ (forall s, content (getBox s (syncScroll source target ui)) = content (getBox s ui))
  /\ (forall s, height (getBox s (syncScroll source target ui)) = height (getBox s ui)).
Proof.
  destruct (syncing ui) eqn:Hs.
  - rewrite syncScroll_held by exact Hs. repeat split.
  - rewrite syncScroll_free by exact Hs.
    repeat split; intros s; destruct s, target; reflexivity.
Qed.

Lemma setScrollPerc_frame (side : Side) (p : Z) (ui : UI) :
  focusedBox (setScrollPerc side p ui) = focusedBox ui
  /\ (forall s, content (getBox s (setScrollPerc side p ui)) = content (getBox s ui)).
Proof.
  unfold setScrollPerc.
  destruct (syncScroll_frame side (other side)
              (setBox side (Box_moveTo p (getBox side ui)) ui)) as [Hf [Hc _]].
  split; [exact Hf|]. intros s. rewrite Hc. destruct s, side; reflexivity.
Qed.

Lemma logTo_focus (s : Side) (msg : string) (ui : UI) :
  focusedBox (logTo s msg ui) = focusedBox ui.
Proof.
  destruct s; unfold logTo, logLeft, logRight;
    rewrite (proj1 (syncScroll_frame _ _ _)), (proj1 (setScrollPerc_frame _ _ _));
    reflexivity.
Qed.

Section LoopProperties.

Variable lineTarget : Box -> Z -> Z.

Lemma scrollKey_frame (k : Key) (ui ui' : UI) :
  isScrollKey k = true ->
  onKey lineTarget k ui = Continue ui' ->
  focusedBox ui' = focusedBox ui
  /\ (forall s, content (getBox s ui') = content (getBox s ui))
  /\ (forall s, getLines s ui' = getLines s ui).
Proof.
  intros Hk Hstep.
  destruct k; try discriminate Hk; simpl in Hstep; inversion Hstep; subst;
    unfold onUp, onDown, onPageUp, onPageDown, onHome, onEnd, scroll;
    (split; [|split]).
  all: try (rewrite (proj1 (syncScroll_frame _ _ _)), (proj1 (setScrollPerc_frame _ _ _));
            reflexivity).
  all: try (intros s; rewrite (proj1 (proj2 (syncScroll_frame _ _ _))),
                              (proj2 (setScrollPerc_frame _ _ _)); reflexivity).
  all: intros s; rewrite syncScroll_lines, setScrollPerc_lines; reflexivity.
Qed.

(** What the screen handler of a key leaves alone. *)
Lemma onKey_frame (k : Key) (ui ui' : UI) :
  onKey lineTarget k ui = Continue ui' ->
  focusedBox ui' = match k with
                   | KeyTab => other (focusedBox ui)
                   | _ => focusedBox ui
                   end
  /\ (forall s, content (getBox s ui') = content (getBox s ui))
  /\ (forall s, getLines s ui' = getLines s ui).
Proof.
  intros Hstep. destruct (isScrollKey k) eqn:Hk.
  - destruct (scrollKey_frame k ui ui' Hk Hstep) as [Hf Hrest].
    split; [|exact Hrest]. rewrite Hf. destruct k; try discriminate Hk; reflexivity.
  - destruct k; try discriminate Hk; simpl in Hstep; inversion Hstep; subst.
    + unfold onTab. destruct (focusedBox ui); split; try reflexivity;
        split; intros s; destruct s; reflexivity.
    + split; [reflexivity|]. split; reflexivity.
Qed.

(** What the binding of the focused box leaves alone. *)
Lemma ownKey_frame (k : Key) (focused : Side) (ui : UI) :
  focusedBox (ownKey lineTarget k focused ui) = focusedBox ui
  /\ (forall s, content (getBox s (ownKey lineTarget k focused ui)) = content (getBox s ui))
  /\ (forall s, getLines s (ownKey lineTarget k focused ui) = getLines s ui).
Proof.
  assert (Hset : forall p,
    focusedBox (render (setScrollPerc focused p ui)) = focusedBox ui
    /\ (forall s, content (getBox s (render (setScrollPerc focused p ui)))
                  = content (getBox s ui))
    /\ (forall s, getLines s (render (setScrollPerc focused p ui)) = getLines s ui)).
  { intros p.
    destruct (render_frame (setScrollPerc focused p ui)) as [Hbox [Hf _]].
    destruct (setScrollPerc_frame focused p ui) as [Hfocus Hcontent].
    split; [rewrite Hf; exact Hfocus|]. split; intros s.
    - rewrite Hbox. apply Hcontent.
    - transitivity (getLines s (setScrollPerc focused p ui));
        [destruct s; reflexivity | apply setScrollPerc_lines]. }
  unfold ownKey, scroll. destruct (boxKeys k) as [[offset| |]|]; try apply Hset.
  split; [reflexivity|]. split; reflexivity.
Qed.

(** One turn: only the focus key moves the focus. *)
Lemma handle_focus (i : Input) (ui ui' : UI) :
  handle lineTarget i ui = Continue ui' ->
  focusedBox ui'
  = match i with
    | Pressed KeyTab => other (focusedBox ui)
    | _ => focusedBox ui
    end.
Proof.
  intros Hstep. destruct i as [side p|side offset|k|side msg]; simpl in Hstep.
  - inversion Hstep; subst. apply (proj1 (setScrollPerc_frame _ _ _)).
  - inversion Hstep; subst. apply (proj1 (setScrollPerc_frame _ _ _)).
  - destruct (press_continue lineTarget k ui ui' Hstep) as [ui1 [Hscreen Hown]].
    subst ui'. rewrite (proj1 (ownKey_frame k (focusedBox ui) ui1)).
    apply (proj1 (onKey_frame k ui ui1 Hscreen)).
  - inversion Hstep; subst. apply logTo_focus.
Qed.

(** X3.  Over any sequence of turns (scrolls, keys, appends) the focus
    is moved by the focus key only: at the end it is where it started
    when the focus key was pressed an even number of times before the
    process exited, and on the other panel otherwise. *)
Theorem focus_follows_tab_parity (inputs : list Input) (ui : UI) :
  focusedBox (fst (run lineTarget inputs ui))
  = if Nat.even (tabsPressed inputs) then focusedBox ui else other (focusedBox ui).
Proof.
  revert ui. induction inputs as [|i rest IH]; intros ui; [reflexivity|].
  cbn [run]. destruct (handle lineTarget i ui) as [ui'|code] eqn:Hstep.
  - rewrite IH, (handle_focus i ui ui' Hstep).
    destruct i as [side p|side offset|k|side msg]; try reflexivity.
    destruct k; try reflexivity; try (simpl in Hstep; discriminate Hstep).
    cbn [tabsPressed]. rewrite Nat.even_succ, <- Nat.negb_even.
    destruct (Nat.even (tabsPressed rest)); simpl;
      rewrite ?other_involutive; reflexivity.
  - destruct i as [side p|side offset|k|side msg]; try discriminate Hstep.
    destruct k; try discriminate Hstep; reflexivity.
Qed.

(** A turn ends the process exactly when it is a quit key. *)
Lemma handle_exit (i : Input) (ui : UI) :
  (isQuit i = true -> handle lineTarget i ui = Exit 0)
  /\ (isQuit i = false -> exists ui', handle lineTarget i ui = Continue ui').
Proof.
  destruct i as [side p|side offset|k|side msg]; cbn [handle isQuit];
    try (split; [discriminate | intros _; eexists; reflexivity]).
  unfold press. destruct k; cbn [onKey];
    try (split; [discriminate | intros _; eexists; reflexivity]);
    (split; [reflexivity | discriminate]).
Qed.

(** Without a quit key among them, the turns all run. *)
Lemma run_no_exit (inputs : list Input) (ui : UI) :
  snd (run lineTarget inputs ui) = None
  <-> existsb isQuit inputs = false.
Proof.
  revert ui. induction inputs as [|i rest IH]; intros ui; [split; reflexivity|].
  cbn [run existsb]. destruct (isQuit i) eqn:Hq.
  - rewrite (proj1 (handle_exit i ui) Hq). cbn [snd orb]. split; discriminate.
  - destruct (proj2 (handle_exit i ui) Hq) as [ui' Hstep]. rewrite Hstep.
    cbn [orb]. apply IH.
Qed.

(** A quit key after turns that do not exit ends the process there. *)
Lemma run_quit (before after : list Input) (i : Input) (ui : UI) :
  existsb isQuit before = false ->
  isQuit i = true ->
  run lineTarget (before ++ i :: after) ui = (fst (run lineTarget before ui), Some 0).
Proof.
  revert ui. induction before as [|b rest IH]; intros ui Hnone Hq.
  - cbn [app run]. rewrite (proj1 (handle_exit i ui) Hq). reflexivity.
  - cbn [existsb] in Hnone. apply orb_false_iff in Hnone as [Hb Hrest].
    cbn [app run]. destruct (proj2 (handle_exit b ui) Hb) as [ui' Hstep].
    rewrite Hstep. apply IH; assumption.
Qed.

(** The turns split at the first quit key, if there is one. *)
Lemma first_quit (inputs : list Input) :
  existsb isQuit inputs = true ->
  exists before i after,
    inputs = (before ++ i :: after)%list
    /\ existsb isQuit before = false
    /\ isQuit i = true.
Proof.
  induction inputs as [|i rest IH]; [discriminate|].
  cbn [existsb]. destruct (isQuit i) eqn:Hq.
  - intros _. exists [], i, rest. repeat split. exact Hq.
  - cbn [orb]. intros Hrest.
    destruct (IH Hrest) as [before [q [after [Hsplit [Hnone Hquit]]]]].
    exists (i :: before), q, after. subst rest.
    split; [reflexivity|]. split; [|exact Hquit].
    cbn [existsb]. rewrite Hq. exact Hnone.
Qed.

(** X4.  Among the turns of the user interface (scroll events, wheel
    scrolls, key presses, appends) a press of [q] or [Ctrl-C] is the one
    thing that ends the process, and it ends it with code 0.  A sequence
    of turns exits if and only if a quit key is among them; the turns
    before the first quit key all run, whatever they are and whatever
    the state, the process exits at that key with code 0 in the state
    those turns left, and no later turn has any effect. *)
Theorem exit_only_by_quit_key (inputs : list Input) (ui : UI) :
  (snd (run lineTarget inputs ui) = None <-> existsb isQuit inputs = false)
  /\ (forall code,
        snd (run lineTarget inputs ui) = Some code ->
        code = 0
        /\ exists before k after,
             inputs = (before ++ Pressed k :: after)%list
             /\ (k = KeyQ \/ k = KeyCtrlC)
             /\ existsb isQuit before = false
             /\ snd (run lineTarget before ui) = None
             /\ fst (run lineTarget inputs ui) = fst (run lineTarget before ui))
  /\ (forall before k after,
        inputs = (before ++ Pressed k :: after)%list ->
        k = KeyQ \/ k = KeyCtrlC ->
        existsb isQuit before = false ->
        run lineTarget inputs ui = (fst (run lineTarget before ui), Some 0)).
Proof.
  split; [apply run_no_exit|]. split.
  - intros code Hexit.
    destruct (existsb isQuit inputs) eqn:Hq.
    + destruct (first_quit inputs Hq) as [before [i [after [Hsplit [Hnone Hquit]]]]].
      subst inputs. rewrite (run_quit before after i ui Hnone Hquit) in *.
      cbn [fst snd] in *. inversion Hexit; subst. split; [reflexivity|].
      destruct i as [side p|side offset|k|side msg]; try discriminate Hquit.
      exists before, k, after. split; [reflexivity|].
      split; [destruct k; try discriminate Hquit; [now left | now right]|].
      split; [exact Hnone|]. split; [apply run_no_exit; exact Hnone | reflexivity].
    + apply (proj2 (run_no_exit inputs ui)) in Hq. rewrite Hq in Hexit.
      discriminate Hexit.
  - intros before k after Hsplit Hk Hnone. subst inputs.
    apply run_quit; [exact Hnone|]. destruct Hk; subst k; reflexivity.
Qed.

End LoopProperties.

Lemma exit_only_by_quit_key_witness :
  snd (run sampleTarget
         [Pressed KeyDown; Pressed KeyTab; Pressed KeyCtrlC; Appended LeftSide "late"]
         sampleUI) = Some 0
  /\ run sampleTarget
       [Pressed KeyDown; Pressed KeyTab; Pressed KeyCtrlC; Appended LeftSide "late"]
       sampleUI
     = (fst (run sampleTarget [Pressed KeyDown; Pressed KeyTab] sampleUI), Some 0).
Proof.
  split; [reflexivity|].
  exact (proj2 (proj2 (exit_only_by_quit_key sampleTarget
                         [Pressed KeyDown; Pressed KeyTab; Pressed KeyCtrlC;
                          Appended LeftSide "late"] sampleUI))
           [Pressed KeyDown; Pressed KeyTab] KeyCtrlC [Appended LeftSide "late"]
           eq_refl (or_intror eq_refl) eq_refl).
Defined.

(** ** Mirrored panels *)

(** Setting one panel with the guard free leaves the two mirrored. *)
Lemma setScrollPerc_mirrored (s : Side) (p : Z) (ui : UI) :
  syncing ui = false -> mirrored (setScrollPerc s p ui).
Proof.
  intros Hfree. unfold setScrollPerc, mirrored.
  rewrite syncScroll_free by exact Hfree.
  pose proof (clampPerc_range p) as Hr.
  destruct s; simpl; rewrite clampPerc_idem; repeat split; lia.
Qed.

(** A synchronisation of mirrored panels leaves them mirrored. *)
Lemma syncScroll_mirrored (s : Side) (ui : UI) :
  mirrored ui -> mirrored (syncScroll s (other s) ui).
Proof.
  intros [Hfree [Heq Hr]]. unfold mirrored.
  rewrite syncScroll_free by exact Hfree.
  destruct s; simpl; unfold Box_getScrollPerc;
    rewrite clampPerc_fixed by lia; repeat split; lia.
Qed.

Lemma logTo_mirrored (s : Side) (msg : string) (ui : UI) :
  syncing ui = false -> mirrored (logTo s msg ui).
Proof.
  intros Hfree. destruct s; unfold logTo, logLeft, logRight.
  - apply (syncScroll_mirrored LeftSide), setScrollPerc_mirrored. exact Hfree.
  - apply (syncScroll_mirrored RightSide), setScrollPerc_mirrored. exact Hfree.
Qed.

Section MirrorProperties.

Variable lineTarget : Box -> Z -> Z.

Lemma render_mirrored (ui : UI) : mirrored ui -> mirrored (render ui).
Proof. intros H. exact H. Qed.

Lemma onKey_mirrored (k : Key) (ui ui' : UI) :
  mirrored ui -> onKey lineTarget k ui = Continue ui' -> mirrored ui'.
Proof.
  intros Hm Hstep. pose proof Hm as [Hfree _].
  destruct k; simpl in Hstep; inversion Hstep; subst;
    unfold onUp, onDown, onPageUp, onPageDown, onHome, onEnd, scroll;
    try (apply (syncScroll_mirrored LeftSide), setScrollPerc_mirrored; exact Hfree);
    try exact Hm.
  unfold onTab. destruct (focusedBox ui); exact Hm.
Qed.

Lemma ownKey_mirrored (k : Key) (focused : Side) (ui : UI) :
  mirrored ui -> mirrored (ownKey lineTarget k focused ui).
Proof.
  intros Hm. pose proof Hm as [Hfree _]. unfold ownKey, scroll.
  destruct (boxKeys k) as [[offset| |]|]; try exact Hm;
    apply render_mirrored, setScrollPerc_mirrored; exact Hfree.
Qed.

Lemma handle_mirrored (i : Input) (ui ui' : UI) :
  mirrored ui -> handle lineTarget i ui = Continue ui' -> mirrored ui'.
Proof.
  intros Hm Hstep. pose proof Hm as [Hfree _].
  destruct i as [side p|side offset|k|side msg]; simpl in Hstep.
  - inversion Hstep; subst. now apply setScrollPerc_mirrored.
  - inversion Hstep; subst. unfold scroll. now apply setScrollPerc_mirrored.
  - destruct (press_continue lineTarget k ui ui' Hstep) as [ui1 [Hscreen Hown]].
    subst ui'. apply ownKey_mirrored. eapply onKey_mirrored; eassumption.
  - inversion Hstep; subst. now apply logTo_mirrored.
Qed.

(** X5.  Mirroring is an invariant of the event loop: from a state in
    which the guard is free and both panels stand at the same percentage
    within [0,100], any sequence of turns (scrolls of either panel, keys,
    appends to either panel) ends with the guard free and both panels at
    the same percentage within [0,100]. *)
Theorem panels_stay_mirrored (inputs : list Input) (ui : UI) :
  syncing ui = false ->
  scrollPerc (leftBox ui) = scrollPerc (rightBox ui) ->
  0 <= scrollPerc (leftBox ui) <= 100 ->
  syncing (fst (run lineTarget inputs ui)) = false
  /\ scrollPerc (leftBox (fst (run lineTarget inputs ui)))
     = scrollPerc (rightBox (fst (run lineTarget inputs ui)))
  /\ 0 <= scrollPerc (leftBox (fst (run lineTarget inputs ui))) <= 100.
Proof.
  intros Hfree Heq Hr.
  assert (Hm : mirrored ui) by (repeat split; assumption || lia).
  clear Hfree Heq Hr. revert ui Hm.
  induction inputs as [|i rest IH]; intros ui Hm; cbn [run].
  - exact Hm.
  - destruct (handle lineTarget i ui) as [ui'|code] eqn:Hstep.
    + apply IH. eapply handle_mirrored; eassumption.
    + exact Hm.
Qed.

Lemma handle_rendered (i : Input) (ui ui' : UI) :
  rendered ui -> handle lineTarget i ui = Continue ui' -> rendered ui'.
Proof.
  intros Hr Hstep s.
  destruct i as [side p|side offset|k|side msg]; simpl in Hstep.
  - inversion Hstep; subst.
    rewrite (proj2 (setScrollPerc_frame _ _ _)), setScrollPerc_lines. apply Hr.
  - inversion Hstep; subst. unfold scroll.
    rewrite (proj2 (setScrollPerc_frame _ _ _)), setScrollPerc_lines. apply Hr.
  - destruct (press_continue lineTarget k ui ui' Hstep) as [ui1 [Hscreen Hown]].
    subst ui'.
    destruct (ownKey_frame lineTarget k (focusedBox ui) ui1) as [_ [Hc Hl]].
    destruct (onKey_frame lineTarget k ui ui1 Hscreen) as [_ [Hc1 Hl1]].
    rewrite Hc, Hl, Hc1, Hl1. apply Hr.
  - inversion Hstep; subst. now apply logTo_rendered.
Qed.

(** X6.  The boxes never show anything but the line arrays: if each box
    shows its array joined by newlines, it still does after any sequence
    of turns. *)
Theorem boxes_show_their_lines (inputs : list Input) (ui : UI) :
  (forall s, content (getBox s ui) = join nl (getLines s ui)) ->
  forall s,
    content (getBox s (fst (run lineTarget inputs ui)))
    = join nl (getLines s (fst (run lineTarget inputs ui))).
Proof.
  intros Hr. change (rendered (fst (run lineTarget inputs ui))).
  change (rendered ui) in Hr. revert ui Hr.
  induction inputs as [|i rest IH]; intros ui Hr; cbn [run].
  - exact Hr.
  - destruct (handle lineTarget i ui) as [ui'|code] eqn:Hstep.
    + apply IH. eapply handle_rendered; eassumption.
    + exact Hr.
Qed.

End MirrorProperties.

Lemma panels_stay_mirrored_witness :
  syncing sampleUI = false
  /\ scrollPerc (leftBox sampleUI) = scrollPerc (rightBox sampleUI)
  /\ 0 <= scrollPerc (leftBox sampleUI) <= 100
  /\ (syncing (fst (run sampleTarget
                     [Appended RightSide "a"; Wheel RightSide (-3); Pressed KeyTab;
                      Pressed KeyDown; Scrolled LeftSide 250] sampleUI)) = false
      /\ scrollPerc (leftBox (fst (run sampleTarget
                     [Appended RightSide "a"; Wheel RightSide (-3); Pressed KeyTab;
                      Pressed KeyDown; Scrolled LeftSide 250] sampleUI)))
         = scrollPerc (rightBox (fst (run sampleTarget
                     [Appended RightSide "a"; Wheel RightSide (-3); Pressed KeyTab;
                      Pressed KeyDown; Scrolled LeftSide 250] sampleUI)))
      /\ 0 <= scrollPerc (leftBox (fst (run sampleTarget
                     [Appended RightSide "a"; Wheel RightSide (-3); Pressed KeyTab;
                      Pressed KeyDown; Scrolled LeftSide 250] sampleUI))) <= 100).
Proof.
  split; [reflexivity|]. split; [reflexivity|]. split; [simpl; lia|].
  apply (panels_stay_mirrored sampleTarget
           [Appended RightSide "a"; Wheel RightSide (-3); Pressed KeyTab;
            Pressed KeyDown; Scrolled LeftSide 250] sampleUI);
    [reflexivity | reflexivity | simpl; lia].
Defined.

Lemma boxes_show_their_lines_witness :
  (forall s, content (getBox s unevenUI) = join nl (getLines s unevenUI))
  /\ forall s,
       content (getBox s (fst (run sampleTarget
                                 [Appended LeftSide "x"; Pressed KeyEnd; Appended RightSide "y"]
                                 unevenUI)))
       = join nl (getLines s (fst (run sampleTarget
                                 [Appended LeftSide "x"; Pressed KeyEnd; Appended RightSide "y"]
                                 unevenUI))).
Proof.
  assert (H : forall s, content (getBox s unevenUI) = join nl (getLines s unevenUI)).
  { intros []; reflexivity. }
  split; [exact H|].
  apply (boxes_show_their_lines sampleTarget
           [Appended LeftSide "x"; Pressed KeyEnd; Appended RightSide "y"] unevenUI).
  exact H.
Defined.

(** ** Redundant synchronisations, recursion depth, redraws *)

(** X14.  In [logLeft], [logRight] and the scroll key handlers the
    explicit [syncScroll] call that follows the move of the source panel
    finds the panels already synchronised by the scroll listener: with
    the guard free it changes neither box, only redraws the screen once
    more. *)
Theorem explicit_sync_is_redundant (s : Side) (p : Z) (ui : UI) :
  syncing ui = false ->
  leftBox (syncScroll s (other s) (setScrollPerc s p ui)) = leftBox (setScrollPerc s p ui)
  /\ rightBox (syncScroll s (other s) (setScrollPerc s p ui))
     = rightBox (setScrollPerc s p ui)
  /\ syncing (syncScroll s (other s) (setScrollPerc s p ui)) = false
  /\ renders (syncScroll s (other s) (setScrollPerc s p ui))
     = S (renders (setScrollPerc s p ui)).
Proof.
  intros Hfree. unfold setScrollPerc.
  rewrite (syncScroll_free _ _ (setBox _ _ _)) by exact Hfree.
  rewrite syncScroll_free by reflexivity.
  destruct s; simpl; unfold Box_moveTo; simpl; rewrite !clampPerc_idem;
    repeat split; reflexivity.
Qed.

Lemma explicit_sync_is_redundant_witness :
  syncing unevenUI = false
  /\ (leftBox (syncScroll RightSide (other RightSide) (setScrollPerc RightSide 30 unevenUI))
      = leftBox (setScrollPerc RightSide 30 unevenUI)
      /\ rightBox (syncScroll RightSide (other RightSide) (setScrollPerc RightSide 30 unevenUI))
         = rightBox (setScrollPerc RightSide 30 unevenUI)
      /\ syncing (syncScroll RightSide (other RightSide) (setScrollPerc RightSide 30 unevenUI))
         = false
      /\ renders (syncScroll RightSide (other RightSide) (setScrollPerc RightSide 30 unevenUI))
         = S (renders (setScrollPerc RightSide 30 unevenUI))).
Proof.
  split; [reflexivity|].
  apply (explicit_sync_is_redundant RightSide 30 unevenUI). reflexivity.
Defined.

(** X15.  The recursion of [syncScroll] through the scroll listeners is
    one call deep.  Whatever the state, a depth of two gives the result
    and any greater depth gives the same one; at depth one a call that
    finds the guard held returns at once, and a call that finds it free
    cannot finish, because the listener of its target is entered. *)
Theorem listener_recursion_is_one_deep (source target : Side) (ui : UI) :
  (forall n, syncScrollFuel (S (S n)) source target ui = syncScrollFuel 2 source target ui)
  /\ syncScrollFuel 2 source target ui = Some (syncScroll source target ui)
  /\ (syncing ui = true -> syncScrollFuel 1 source target ui = Some ui)
  /\ (syncing ui = false -> syncScrollFuel 1 source target ui = None).
Proof.
  split; [|split; [|split]].
  - intros n. now rewrite !syncScrollFuel_enough.
  - apply syncScrollFuel_enough.
  - intros Hheld. simpl. now rewrite Hheld.
  - apply syncScrollFuel_one.
Qed.

Lemma listener_recursion_is_one_deep_witness :
  syncing unevenUI = false
  /\ syncScrollFuel 1 LeftSide RightSide unevenUI = None
  /\ syncScrollFuel 5 LeftSide RightSide unevenUI
     = syncScrollFuel 2 LeftSide RightSide unevenUI.
Proof.
  split; [reflexivity|]. split.
  - exact (proj2 (proj2 (proj2 (listener_recursion_is_one_deep LeftSide RightSide unevenUI)))
             eq_refl).
  - exact (proj1 (listener_recursion_is_one_deep LeftSide RightSide unevenUI) 3%nat).
Defined.

(** X16.  Redraws per turn, with the guard free: a scroll of one panel
    redraws the screen once, an append to either panel twice, the screen
    handler of a scroll key twice; the focus key always redraws once. *)
Theorem redraws_per_turn (lineTarget : Box -> Z -> Z) (ui : UI) :
  syncing ui = false ->
  (forall s p, renders (setScrollPerc s p ui) = S (renders ui))
  /\ (forall s msg, renders (logTo s msg ui) = S (S (renders ui)))
  /\ (forall k ui',
        isScrollKey k = true -> onKey lineTarget k ui = Continue ui' ->
        renders ui' = S (S (renders ui)))
  /\ renders (onTab ui) = S (renders ui).
Proof.
  intros Hfree. split; [|split; [|split]].
  - intros s p. unfold setScrollPerc.
    rewrite syncScroll_free by exact Hfree. destruct s; reflexivity.
  - intros s msg. destruct s; unfold logTo, logLeft, logRight, setScrollPerc;
      rewrite (syncScroll_free _ _ (setBox _ _ _)) by exact Hfree;
      rewrite syncScroll_free by reflexivity; reflexivity.
  - intros k ui' Hk Hstep.
    destruct k; try discriminate Hk; simpl in Hstep; inversion Hstep; subst;
      unfold onUp, onDown, onPageUp, onPageDown, onHome, onEnd, scroll, setScrollPerc;
      rewrite (syncScroll_free _ _ (setBox _ _ _)) by exact Hfree;
      rewrite syncScroll_free by reflexivity; reflexivity.
  - unfold onTab. destruct (focusedBox ui); reflexivity.
Qed.

Lemma redraws_per_turn_witness :
  syncing unevenUI = false
  /\ renders (logTo LeftSide "more" unevenUI) = S (S (renders unevenUI))
  /\ renders (setScrollPerc RightSide 10 unevenUI) = S (renders unevenUI).
Proof.
  split; [reflexivity|]. split.
  - exact (proj1 (proj2 (redraws_per_turn sampleTarget unevenUI eq_refl)) LeftSide "more").
  - exact (proj1 (redraws_per_turn sampleTarget unevenUI eq_refl) RightSide 10).
Defined.

(** ** Failing consumers *)

(** X7.  When the iteration over the stream throws, the consumer fails
    with that very error and no follow-up retrieval is attempted. *)
Theorem stream_failure_skips_retrievals (s : Side) (result : StreamResult) (e : Error) :
  streamFailure result = Some e ->
  snd (consumer s result) = inl e
  /\ retrievals (fst (consumer s result)) = [].
Proof.
  intros Hfail. destruct s; unfold consumer.
  - rewrite testWithoutWrapping_cases, Hfail. cbv zeta. cbn [fst snd retrievals].
    split; [reflexivity | apply retrievals_loopActions].
  - rewrite testWithWrapping_cases, Hfail. cbv zeta. cbn [fst snd retrievals].
    split; [reflexivity | apply retrievals_loopActions].
Qed.

Lemma stream_failure_skips_retrievals_witness :
  streamFailure failingResult = Some sampleError
  /\ (snd (consumer LeftSide failingResult) = inl sampleError
      /\ retrievals (fst (consumer LeftSide failingResult)) = []).
Proof.
  split; [reflexivity|].
  apply (stream_failure_skips_retrievals LeftSide failingResult sampleError). reflexivity.
Defined.

(** Awaiting stops at the first rejected promise. *)
Lemma untilRejected_first (before after : list (Awaited * option Error))
    (what : Awaited) (e : Error) :
  forallb (fun p => fulfilled (snd p)) before = true ->
  untilRejected (before ++ (what, Some e) :: after)
  = ((map fst before ++ [what])%list, Some e).
Proof.
  induction before as [|[w [e0|]] rest IH]; cbn [forallb fulfilled snd andb];
    intros H; try discriminate H.
  - reflexivity.
  - cbn [app untilRejected map fst]. rewrite (IH H). reflexivity.
Qed.

Lemma untilRejected_none (promises : list (Awaited * option Error)) :
  forallb (fun p => fulfilled (snd p)) promises = true ->
  untilRejected promises = (map fst promises, None).
Proof.
  induction promises as [|[w [e0|]] rest IH]; cbn [forallb fulfilled snd andb];
    intros H; try discriminate H.
  - reflexivity.
  - cbn [untilRejected map fst]. rewrite (IH H). reflexivity.
Qed.

(** The retrievals a consumer performs and the way it settles, from the
    way its stream and its follow-up promises settle. *)
Lemma consumer_retrievals (s : Side) (result : StreamResult) :
  retrievals (fst (consumer s result))
  = match streamFailure result with
    | Some _ => []
    | None => fst (untilRejected (settles s result))
    end
  /\ settlement (snd (consumer s result))
     = match streamFailure result with
       | Some e => Some e
       | None => snd (untilRejected (settles s result))
       end.
Proof.
  destruct s; unfold consumer, settles.
  - rewrite testWithoutWrapping_cases. cbv zeta.
    destruct (streamFailure result) as [e0|], (text result) as [e1|t],
             (toolCalls result) as [e2|c], (toolResults result) as [e3|r];
      cbn [fst snd retrievals app];
      rewrite ?retrievals_app, retrievals_loopActions;
      split; reflexivity.
  - rewrite testWithWrapping_cases. cbv zeta.
    destruct (streamFailure result) as [e0|], (toolResults result) as [e3|r];
      cbn [fst snd retrievals app];
      rewrite ?retrievals_app, retrievals_loopActions;
      split; reflexivity.
Qed.

(** X8.  After a stream that did not throw, the follow-up retrievals are
    awaited one after the other in the order of the source (text, tool
    calls, tool results for the unwrapped consumer; tool results for the
    wrapped one) and stop at the first rejection: if a promise of that
    list is rejected and all before it are fulfilled, the consumer has
    awaited the ones before it and the rejected one, none after it, and
    it fails with that rejection; if all are fulfilled, it has awaited
    them all and returns. *)
Theorem retrievals_stop_at_first_failure (s : Side) (result : StreamResult) :
  streamFailure result = None ->
  (forall before what e after,
     settles s result = (before ++ (what, Some e) :: after)%list ->
     forallb (fun p => fulfilled (snd p)) before = true ->
     retrievals (fst (consumer s result)) = (map fst before ++ [what])%list
     /\ snd (consumer s result) = inl e)
  /\ (forallb (fun p => fulfilled (snd p)) (settles s result) = true ->
      retrievals (fst (consumer s result)) = map fst (settles s result)
      /\ snd (consumer s result) = inr tt).
Proof.
  intros Hstream.
  destruct (consumer_retrievals s result) as [Hawaited Houtcome].
  rewrite Hstream in Hawaited, Houtcome. split.
  - intros before what e after Hsplit Hbefore.
    rewrite Hsplit, untilRejected_first in Hawaited, Houtcome by exact Hbefore.
    split; [exact Hawaited|].
    destruct (snd (consumer s result)) as [e'|u]; cbn [settlement snd] in Houtcome;
      [inversion Houtcome; reflexivity | discriminate Houtcome].
  - intros Hall. rewrite untilRejected_none in Hawaited, Houtcome by exact Hall.
    split; [exact Hawaited|].
    destruct (snd (consumer s result)) as [e'|[]]; cbn [settlement snd] in Houtcome;
      [discriminate Houtcome | reflexivity].
Qed.

Lemma retrievals_stop_at_first_failure_witness :
  streamFailure textFailingResult = None
  /\ settles LeftSide textFailingResult
     = ([] ++ (FinalText, Some sampleError)
           :: [(ToolCalls, None); (ToolResults, None)])%list
  /\ retrievals (fst (consumer LeftSide textFailingResult)) = [FinalText]
  /\ snd (consumer LeftSide textFailingResult) = inl sampleError.
Proof.
  split; [reflexivity|]. split; [reflexivity|].
  exact (proj1 (retrievals_stop_at_first_failure LeftSide textFailingResult eq_refl)
           [] FinalText sampleError [(ToolCalls, None); (ToolResults, None)]
           eq_refl eq_refl).
Defined.

(** X9.  A consumer that fails, wherever it fails, has appended nothing
    but its start line and the lines of its stream: the summary sections
    are appended only after every retrieval has succeeded. *)
Theorem failed_consumer_appends_no_section (s : Side) (result : StreamResult) (e : Error) :
  snd (consumer s result) = inl e ->
  logged s (fst (consumer s result)) = startLine s :: shown (fullStream result).
Proof.
  destruct s; unfold consumer.
  - rewrite testWithoutWrapping_cases. cbv zeta.
    destruct (streamFailure result) as [e0|], (text result) as [e1|t],
             (toolCalls result) as [e2|c], (toolResults result) as [e3|r];
      cbn [fst snd]; intros H; try discriminate H;
      cbn [logged Side_eqb app startLine];
      rewrite ?logged_app, logged_loopActions;
      cbn [logged]; rewrite ?app_nil_r; reflexivity.
  - rewrite testWithWrapping_cases. cbv zeta.
    destruct (streamFailure result) as [e0|], (toolResults result) as [e3|r];
      cbn [fst snd]; intros H; try discriminate H;
      cbn [logged Side_eqb app startLine];
      rewrite ?logged_app, logged_loopActions;
      cbn [logged]; rewrite ?app_nil_r; reflexivity.
Qed.

Lemma failed_consumer_appends_no_section_witness :
  snd (consumer LeftSide textFailingResult) = inl sampleError
  /\ logged LeftSide (fst (consumer LeftSide textFailingResult))
     = startLine LeftSide :: shown (fullStream textFailingResult).
Proof.
  split; [reflexivity|].
  apply (failed_consumer_appends_no_section LeftSide textFailingResult sampleError).
  reflexivity.
Defined.

(** X10.  The line under the final-text header is never blank: an empty
    final text is shown as [(empty)], any other text as it is. *)
Theorem final_text_never_blank (result : StreamResult) (t : string) (c r : JValue) :
  streamFailure result = None ->
  text result = inr t -> toolCalls result = inr c -> toolResults result = inr r ->
  exists before shownText after,
    logged LeftSide (fst (testWithoutWrapping result))
    = (before ++ [finalTextHeader; shownText; ""] ++ after)%list
    /\ shownText <> ""
    /\ (t = "" /\ shownText = "(empty)" \/ t <> "" /\ shownText = t).
Proof.
  intros Hs Ht Hc Hr.
  destruct (testWithoutWrapping_summaries result t c r Hs Ht Hc Hr) as [_ Hlog].
  exists (startLine LeftSide :: shown (fullStream result)),
         (if String.eqb t "" then "(empty)" else t),
         [toolCallsHeader; formatPart c; ""; toolResultsHeader; formatPart r; ""; doneLine].
  split; [exact Hlog|].
  destruct (String.eqb_spec t "") as [Hempty|Hne].
  - split; [discriminate|]. left. split; [exact Hempty | reflexivity].
  - split; [exact Hne|]. right. split; [exact Hne | reflexivity].
Qed.

Lemma final_text_never_blank_witness :
  streamFailure sampleResult = None
  /\ text sampleResult = inr "Hi"
  /\ toolCalls sampleResult = inr (JArr []) /\ toolResults sampleResult = inr (JArr [])
  /\ exists before shownText after,
       logged LeftSide (fst (testWithoutWrapping sampleResult))
       = (before ++ [finalTextHeader; shownText; ""] ++ after)%list
       /\ shownText <> ""
       /\ ("Hi" = "" /\ shownText = "(empty)" \/ "Hi" <> "" /\ shownText = "Hi").
Proof.
  repeat (split; [reflexivity|]).
  apply (final_text_never_blank sampleResult "Hi" (JArr []) (JArr [])); reflexivity.
Defined.

(** ** The script as a whole *)





(** The other call does matter when its handler throws: the same left
    call ends with the quit notice next to a right call that succeeds
    and without it next to one that rejects with a cyclic cause. *)
Example other_handler_throw_drops_the_notice :
  leftLines (exec (program sampleSchedule sampleResult sampleResult) sampleUI)
  = (leftLines (exec (program sampleSchedule sampleResult cyclicFailingResult) sampleUI)
     ++ [quitNotice])%list.
Proof. vm_compute. reflexivity. Qed.


(** ** Startup *)

(** X13.  A model is only ever created with a non-empty key taken from
    the variable of its own provider, and the displayed name goes with
    the provider; the OpenAI model is created only when the Anthropic
    variable is absent or empty. *)
Theorem selected_model_has_its_key (env : Env) (m : Model) (name : string) :
  selectModel env = Selected m name ->
  apiKey m <> ""
  /\ (provider m = Anthropic
      /\ ANTHROPIC_API_KEY env = Some (apiKey m)
      /\ modelId m = "claude-3-5-haiku-latest" /\ name = "Claude 3.5 Haiku"
      \/
      provider m = OpenAI
      /\ OPENAI_API_KEY env = Some (apiKey m)
      /\ envTruthy (ANTHROPIC_API_KEY env) = false
      /\ modelId m = "gpt-4o-mini" /\ name = "GPT-4o Mini").
Proof.
  unfold selectModel. intros Hsel.
  destruct (envTruthy (ANTHROPIC_API_KEY env)) eqn:Ha.
  - inversion Hsel; subst; clear Hsel. cbn [apiKey provider modelId].
    destruct (ANTHROPIC_API_KEY env) as [key|]; [|discriminate Ha].
    cbn [envTruthy] in Ha. split.
    + intros Hempty. rewrite Hempty in Ha. discriminate Ha.
    + left. repeat split.
  - destruct (envTruthy (OPENAI_API_KEY env)) eqn:Ho; [|discriminate Hsel].
    inversion Hsel; subst; clear Hsel. cbn [apiKey provider modelId].
    destruct (OPENAI_API_KEY env) as [key|]; [|discriminate Ho].
    cbn [envTruthy] in Ho. split.
    + intros Hempty. rewrite Hempty in Ho. discriminate Ho.
    + right. repeat split.
Qed.

Lemma selected_model_has_its_key_witness :
  selectModel emptyAnthropicEnv
  = Selected {| provider := OpenAI; apiKey := "sk-test"; modelId := "gpt-4o-mini" |}
             "GPT-4o Mini"
  /\ "sk-test" <> ""
  /\ OPENAI_API_KEY emptyAnthropicEnv = Some "sk-test".
Proof.
  split; [reflexivity|].
  destruct (selected_model_has_its_key emptyAnthropicEnv
              {| provider := OpenAI; apiKey := "sk-test"; modelId := "gpt-4o-mini" |}
              "GPT-4o Mini" eq_refl) as [Hkey _].
  split; [exact Hkey | reflexivity].
Defined.
